(** * scrapesearch: the fetch / extract / project pipeline of scrapesearch.py

    A shallow embedding of [clean_text], [fetch_search_results],
    [scrape_page], [process_scraped_data] and of the result collection of
    [process_single_query], together with the properties of the
    specification that concern them.

    Conventions.
    - A Python [str] is a [string]; each character stands for one code
      point below 256.
    - A parsed HTML document (a [BeautifulSoup] object) is a forest of
      [node]s; parsing itself is outside the model.
    - The network, the clock and the console are effects: an oracle gives
      the outcome of every [requests.get], and every function returns the
      trace of the requests, sleeps and prints it performed. *)

From Stdlib Require Import List Bool Arith ZArith Lia Ascii String.
Import ListNotations.
Open Scope string_scope.

(** ** Python strings *)

Module PyStr.

(** [str.isspace] on one character: TAB, LF, VT, FF, CR, the separators
    FS, GS, RS, US, the space, NEL and the no-break space. *)
Definition isspace (c : ascii) : bool :=
  let n := nat_of_ascii c in
  (((9 <=? n) && (n <=? 13)) || ((28 <=? n) && (n <=? 32))
   || (n =? 133) || (n =? 160))%nat.

Definition is_empty (s : string) : bool :=
  match s with EmptyString => true | String _ _ => false end.

(** [truthy s] is Python's [bool(s)] for a [str]. *)
Definition truthy (s : string) : bool := negb (is_empty s).

Fixpoint no_space (s : string) : bool :=
  match s with
  | EmptyString => true
  | String c s' => negb (isspace c) && no_space s'
  end.

(** A word is what [str.split()] produces: non-empty and free of
    whitespace. *)
Definition is_word (w : string) : Prop :=
  is_empty w = false /\ no_space w = true.

Definition push_word (w : string) (ws : list string) : list string :=
  if is_empty w then ws else w :: ws.

(** The scan behind [split]: the word under construction at the front of
    the string, and the words completed after it. *)
Fixpoint split_scan (s : string) : string * list string :=
  match s with
  | EmptyString => (EmptyString, [])
  | String c s' =>
      let (w, ws) := split_scan s' in
      if isspace c then (EmptyString, push_word w ws) else (String c w, ws)
  end.

(** [s.split()]: the maximal whitespace-free pieces of [s], in order. *)
Definition split (s : string) : list string :=
  let (w, ws) := split_scan s in push_word w ws.

(** [sep.join(ws)] *)
Fixpoint join (sep : string) (ws : list string) : string :=
  match ws with
  | [] => EmptyString
  | [w] => w
  | w :: ws' => w ++ sep ++ join sep ws'
  end.

Fixpoint lstrip (s : string) : string :=
  match s with
  | EmptyString => EmptyString
  | String c s' => if isspace c then lstrip s' else s
  end.

Fixpoint rstrip (s : string) : string :=
  match s with
  | EmptyString => EmptyString
  | String c s' =>
      let r := rstrip s' in
      if isspace c && is_empty r then EmptyString else String c r
  end.

(** [s.strip()] *)
Definition strip (s : string) : string := rstrip (lstrip s).

(** [sub in s] for two strings. *)
Fixpoint starts_with (p s : string) : bool :=
  match p, s with
  | EmptyString, _ => true
  | String a p', String b s' => Ascii.eqb a b && starts_with p' s'
  | String _ _, EmptyString => false
  end.

Fixpoint contains (sub s : string) : bool :=
  starts_with sub s ||
  match s with
  | EmptyString => false
  | String _ s' => contains sub s'
  end.

(** Shape of a string, as decidable tests: whitespace at the front, at
    the end, two whitespace characters in a row, and whitespace other than
    the plain space. *)
Definition leading_space (s : string) : bool :=
  match s with EmptyString => false | String c _ => isspace c end.

Fixpoint trailing_space (s : string) : bool :=
  match s with
  | EmptyString => false
  | String c s' => if is_empty s' then isspace c else trailing_space s'
  end.

Fixpoint has_space_run (s : string) : bool :=
  match s with
  | EmptyString => false
  | String c s' => (isspace c && leading_space s') || has_space_run s'
  end.

Fixpoint plain_spaces (s : string) : bool :=
  match s with
  | EmptyString => true
  | String c s' => (negb (isspace c) || Ascii.eqb c " ") && plain_spaces s'
  end.

(** A string is tidy when it has the shape [join " "] gives to words. *)
Definition tidy (s : string) : Prop :=
  leading_space s = false /\ trailing_space s = false /\
  has_space_run s = false /\ plain_spaces s = true.

End PyStr.

Open Scope list_scope.

(** ** Python values, as far as [clean_text] inspects them *)

Inductive pyvalue : Type :=
  | PyNone
  | PyBool (b : bool)
  | PyInt (n : Z)
  | PyStr (s : string)
  | PyStrList (l : list string).

(** [clean_text(text)] *)
Definition clean_text (text : pyvalue) : string :=
  match text with
  | PyStr s =>
      let text := PyStr.join " " (PyStr.split s) in
      PyStr.strip text
  | _ => ""
  end.

(** [clean_text] at a [str] argument, the only way the program calls it. *)
Definition clean_str (s : string) : string := clean_text (PyStr s).

(** ** Parsed HTML *)

Set Warnings "-register-all".

Definition attributes := list (string * string).

(** A [Tag] with its name, attributes and contents, or a
    [NavigableString].  The [BeautifulSoup] object itself is the element
    named [[document]]. *)
Inductive node : Type :=
  | Text (s : string)
  | Elem (name : string) (attrs : attributes) (contents : list node).

Module Soup.

Definition soup (contents : list node) : node := Elem "[document]" [] contents.

Definition contents (n : node) : list node :=
  match n with Text _ => [] | Elem _ _ cs => cs end.

(** [tag.get(key)] *)
Fixpoint attrs_get (attrs : attributes) (key : string) : option string :=
  match attrs with
  | [] => None
  | (k, v) :: rest => if String.eqb k key then Some v else attrs_get rest key
  end.

Definition attr (n : node) (key : string) : option string :=
  match n with Text _ => None | Elem _ a _ => attrs_get a key end.

(** [tag.descendants]: everything below the tag, in document order. *)
Fixpoint descendants (n : node) : list node :=
  match n with
  | Text _ => []
  | Elem _ _ cs => flat_map (fun c => c :: descendants c) cs
  end.

Definition named (names : list string) (n : node) : bool :=
  match n with
  | Text _ => false
  | Elem nm _ _ => existsb (String.eqb nm) names
  end.

(** [tag.find_all(names)] and [tag.find(name)] *)
Definition find_all (names : list string) (n : node) : list node :=
  filter (named names) (descendants n).

Definition find (name : string) (n : node) : option node :=
  hd_error (find_all [name] n).

(** [soup.find("meta", attrs={"name": value})] *)
Definition find_meta (value : string) (n : node) : option node :=
  hd_error
    (filter (fun d => match attr d "name" with
                      | Some v => String.eqb v value
                      | None => false
                      end)
            (find_all ["meta"] n)).

(** The strings below a tag, in document order. *)
Fixpoint strings (n : node) : list string :=
  match n with
  | Text s => [s]
  | Elem _ _ cs => flat_map strings cs
  end.

(** [tag.text] *)
Definition text (n : node) : string := PyStr.join "" (strings n).

(** [tag.get_text(strip=True)]: every string stripped, the empty ones
    left out. *)
Definition get_text_strip (n : node) : string :=
  PyStr.join "" (filter PyStr.truthy (map PyStr.strip (strings n))).

(** The effect of [for tag in region.find_all(names): tag.decompose()] on
    the region: every descendant element with one of the names is removed
    together with all it contains. *)
Fixpoint decompose_all (names : list string) (n : node) : node :=
  match n with
  | Text s => Text s
  | Elem nm a cs =>
      Elem nm a
        (flat_map (fun c => if named names c then []
                            else [decompose_all names c]) cs)
  end.

(** *** CSS selectors

    The selectors of [SEARCH_ENGINES] are chains of compound selectors
    (a tag name with at most one class) under the descendant combinator. *)
Record compound : Type := Compound { c_tag : string; c_class : option string }.

(** Outermost first: ["h2 a"] is [[h2; a]]. *)
Definition selector := list compound.

Definition classes (a : attributes) : list string :=
  match attrs_get a "class" with Some v => PyStr.split v | None => [] end.

Definition matches_compound (c : compound) (el : string * attributes) : bool :=
  String.eqb (c_tag c) (fst el) &&
  match c_class c with
  | None => true
  | Some cl => existsb (String.eqb cl) (classes (snd el))
  end.

(** [anc] lists the ancestors of an element, nearest first; [cs] lists the
    compounds still to be found above it, innermost first. *)
Fixpoint match_ancestors (cs : list compound) (anc : list (string * attributes))
  {struct anc} : bool :=
  match cs with
  | [] => true
  | c :: cs' =>
      match anc with
      | [] => false
      | a :: anc' =>
          if matches_compound c a then match_ancestors cs' anc'
          else match_ancestors cs anc'
      end
  end.

Definition matches (sel : selector) (anc : list (string * attributes))
  (el : string * attributes) : bool :=
  match rev sel with
  | [] => false
  | c :: cs => matches_compound c el && match_ancestors cs anc
  end.

(** An element together with its ancestors (nearest first): a selector
    applied below it still sees the elements above it. *)
Definition located : Type := list (string * attributes) * node.

Fixpoint select_walk (sel : selector) (anc : list (string * attributes))
  (n : node) : list located :=
  match n with
  | Text _ => []
  | Elem nm a cs =>
      (if matches sel anc (nm, a) then [(anc, n)] else [])
      ++ flat_map (select_walk sel ((nm, a) :: anc)) cs
  end.

(** [tag.select(sel)] and [tag.select_one(sel)] *)
Definition select (sel : selector) (t : located) : list located :=
  match snd t with
  | Text _ => []
  | Elem nm a cs => flat_map (select_walk sel ((nm, a) :: fst t)) cs
  end.

Definition select_one (sel : selector) (t : located) : option located :=
  hd_error (select sel t).

End Soup.

(** ** Python dictionaries with [str] keys and [str] values

    Insertion order is kept: a new key goes last, an existing key keeps its
    place. *)

Module Dict.

Definition dict := list (string * string).

Fixpoint get (d : dict) (key : string) : option string :=
  match d with
  | [] => None
  | (k, v) :: rest => if String.eqb k key then Some v else get rest key
  end.

(** [key in d] *)
Definition mem (key : string) (d : dict) : bool :=
  match get d key with Some _ => true | None => false end.

(** [d[key] = value] *)
Fixpoint set (d : dict) (key value : string) : dict :=
  match d with
  | [] => [(key, value)]
  | (k, v) :: rest =>
      if String.eqb k key then (k, value) :: rest
      else (k, v) :: set rest key value
  end.

Definition keys (d : dict) : list string := map fst d.

(** [bool(d)] *)
Definition to_bool (d : dict) : bool :=
  match d with [] => false | _ :: _ => true end.

End Dict.

(** ** Configuration tables *)

Definition DOMAINS_TO_SKIP : list string := ["twitter.com"].

Record selectors : Type := Selectors {
  sel_result_link_container : Soup.selector;
  sel_link : Soup.selector;
  sel_title : Soup.selector;
  sel_snippet_container : Soup.selector
}.

Record engine_config : Type := EngineConfig {
  engine_url : string;
  engine_selectors : selectors
}.

Definition tag_ (t : string) : Soup.compound := Soup.Compound t None.
Definition tag_class (t c : string) : Soup.compound := Soup.Compound t (Some c).

(** [SEARCH_ENGINES], in the order of the source. *)
Definition SEARCH_ENGINES : list (string * engine_config) :=
  [ ("google",
     EngineConfig "https://www.google.com/search?q="
       (Selectors [tag_class "div" "tF2Cxc"] [tag_ "a"] [tag_ "h3"]
                  [tag_class "div" "IsZz3e"]));
    ("bing",
     EngineConfig "https://www.bing.com/search?q="
       (Selectors [tag_class "li" "b_algo"] [tag_ "h2"; tag_ "a"] [tag_ "h2"]
                  [tag_class "div" "b_caption"; tag_ "p"]));
    ("duckduckgo",
     EngineConfig "https://duckduckgo.com/html/?q="
       (Selectors [tag_class "div" "results_links_deep"]
                  [tag_class "a" "result__a"] [tag_ "h2"]
                  [tag_class "a" "result__snippet"])) ].

Fixpoint lookup_engine (table : list (string * engine_config)) (name : string)
  : option engine_config :=
  match table with
  | [] => None
  | (k, v) :: rest => if String.eqb k name then Some v else lookup_engine rest name
  end.

Definition google_config : engine_config :=
  EngineConfig "https://www.google.com/search?q="
    (Selectors [tag_class "div" "tF2Cxc"] [tag_ "a"] [tag_ "h3"]
               [tag_class "div" "IsZz3e"]).

(** ** Effects: network, clock, console *)

(** The exceptions the two fetch loops tell apart.  [HTTPError] and
    [Timeout] are subclasses of [RequestException]; [RequestException]
    itself stands for its other subclasses (connection errors, redirect
    loops, undecodable bodies); [KeyError] and [OtherException] are not
    request exceptions. *)
Inductive exn : Type :=
  | HTTPError (status_code : Z)
  | Timeout
  | RequestException
  | KeyError (key : string)
  | OtherException.

Definition is_request_exception (e : exn) : bool :=
  match e with
  | HTTPError _ | Timeout | RequestException => true
  | KeyError _ | OtherException => false
  end.

Inductive result (A : Type) : Type :=
  | Ok (a : A)
  | Raise (e : exn).
Arguments Ok {A} a.
Arguments Raise {A} e.

(** What one [requests.get] does: a response with its status code and
    parsed body, or an exception. *)
Inductive get_outcome : Type :=
  | Responds (status_code : Z) (content : node)
  | Fails (e : exn).

(** The network as seen by one fetch loop: the outcome of the request for
    a URL at a given attempt (the [User-Agent] drawn for the attempt is
    part of what the oracle stands for). *)
Definition network := string -> nat -> get_outcome.

Inductive message : Type :=
  | MsgUnsupportedEngine (engine : string)
  | MsgNoResults (engine : string)
  | MsgServerError (status_code : Z) (attempt_no : nat)
  | MsgHTTPError (status_code : Z)
  | MsgTimeout (attempt_no : nat)
  | MsgRequestError
  | MsgFetchFailed (retries : Z)
  | MsgSkipping (domain url : string)
  | MsgScraping (url : string) (attempt_no : nat)
  | MsgPageTitle (s : string)
  | MsgPageDescription (s : string)
  | MsgPageSnippet (s : string)
  | MsgScrapeError (url : string) (attempt_no : nat)
  | MsgUnexpected (url : string)
  | MsgScrapeFailed (url : string) (retries : Z).

Inductive event : Type :=
  | EvGet (url : string) (timeout_seconds : Z)
  | EvSleep (seconds : Z)
  | EvPrint (m : message).

(** A computation returns a value and the events it performed, in order. *)
Definition io (A : Type) : Type := A * list event.

Definition ret {A} (a : A) : io A := (a, []).

Definition bind {A B} (m : io A) (k : A -> io B) : io B :=
  let (a, t1) := m in let (b, t2) := k a in (b, t1 ++ t2).

Definition emit (e : event) : io unit := (tt, [e]).

Notation "x <- m ;; k" := (bind m (fun x => k))
  (at level 61, m at next level, right associativity).
Notation "m ;;; k" := (bind m (fun _ => k))
  (at level 61, right associativity).

Definition print (verbose : bool) (m : message) : io unit :=
  if verbose then emit (EvPrint m) else ret tt.

(** [response.raise_for_status()]: the status codes 400 to 599 raise
    [HTTPError]. *)
Definition raise_for_status (status_code : Z) (content : node) : result node :=
  if ((400 <=? status_code) && (status_code <? 600))%Z
  then Raise (HTTPError status_code)
  else Ok content.

(** What the two lines [response = requests.get(...)] and
    [response.raise_for_status()] leave of an outcome: the parsed body or
    the exception raised. *)
Definition checked (o : get_outcome) : result node :=
  match o with
  | Responds status_code content => raise_for_status status_code content
  | Fails e => Raise e
  end.

(** The same two lines as a computation: one request is made. *)
Definition get_checked (net : network) (url : string) (timeout_seconds : Z)
  (attempt : nat) : io (result node) :=
  emit (EvGet url timeout_seconds) ;;;
  ret (checked (net url attempt)).

(** [range(retries)] *)
Definition range (n : Z) : list nat := seq 0 (Z.to_nat n).

(** [time.sleep(2 ** attempt)] *)
Definition backoff (attempt : nat) : io unit :=
  emit (EvSleep (2 ^ Z.of_nat attempt)).

(** Readings of a trace. *)
Definition is_get (e : event) : bool :=
  match e with EvGet _ _ => true | _ => false end.

Definition attempts_made (t : list event) : nat := List.length (filter is_get t).

Fixpoint sleeps (t : list event) : list Z :=
  match t with
  | [] => []
  | EvSleep d :: t' => d :: sleeps t'
  | _ :: t' => sleeps t'
  end.

Definition is_print (e : event) : bool :=
  match e with EvPrint _ => true | _ => false end.

(** The requests and sleeps of a trace, in order, without the prints. *)
Definition schedule (t : list event) : list event :=
  filter (fun e => negb (is_print e)) t.

(** One failed attempt followed by its backoff. *)
Definition retry_round (url : string) (timeout_seconds : Z) (attempt : nat)
  : list event :=
  [EvGet url timeout_seconds; EvSleep (2 ^ Z.of_nat attempt)].

Fixpoint prints (t : list event) : list message :=
  match t with
  | [] => []
  | EvPrint m :: t' => m :: prints t'
  | _ :: t' => prints t'
  end.

(** ** fetch_search_results *)

(** The body of the loop over the result containers: the record appended
    for one container, if any. *)
Definition extract_result (sels : selectors) (link_container : Soup.located)
  : option Dict.dict :=
  let link := Soup.select_one (sel_link sels) link_container in
  let title_elem := Soup.select_one (sel_title sels) link_container in
  let snippet_elem := Soup.select_one (sel_snippet_container sels) link_container in
  let link_href :=
    match link with Some l => Soup.attr (snd l) "href" | None => None end in
  let title_text :=
    match title_elem with Some t => Soup.text (snd t) | None => "No title found" end in
  let snippet_text :=
    match snippet_elem with Some t => Soup.text (snd t) | None => "No snippet found" end in
  match link_href with
  | Some href =>
      if PyStr.truthy href && PyStr.truthy title_text
      then Some [("url", href);
                 ("title", clean_str title_text);
                 ("snippet", clean_str snippet_text)]
      else None
  | None => None
  end.

Definition extract_results (sels : selectors) (result_links : list Soup.located)
  : list Dict.dict :=
  fold_left
    (fun results link_container =>
       match extract_result sels link_container with
       | Some r => results ++ [r]
       | None => results
       end)
    result_links [].

(** [for attempt in range(retries): ...] and the two lines after it. *)
Fixpoint fetch_attempts (net : network) (search_engine search_url : string)
  (sels : selectors) (timeout_seconds retries : Z) (attempts : list nat)
  : io (result (list Dict.dict)) :=
  match attempts with
  | [] =>
      emit (EvPrint (MsgFetchFailed retries)) ;;;
      ret (Ok [])
  | attempt :: rest =>
      r <- get_checked net search_url timeout_seconds attempt ;;
      match r with
      | Ok soup =>
          let result_links :=
            Soup.select (sel_result_link_container sels) ([], soup) in
          match result_links with
          | _ :: _ => ret (Ok (extract_results sels result_links))
          | [] =>
              emit (EvPrint (MsgNoResults search_engine)) ;;;
              ret (Ok [])
          end
      | Raise (HTTPError status_code) =>
          if ((status_code =? 500) || (status_code =? 503))%Z then
            emit (EvPrint (MsgServerError status_code (attempt + 1))) ;;;
            backoff attempt ;;;
            fetch_attempts net search_engine search_url sels
                           timeout_seconds retries rest
          else
            emit (EvPrint (MsgHTTPError status_code)) ;;;
            ret (Ok [])
      | Raise Timeout =>
          emit (EvPrint (MsgTimeout (attempt + 1))) ;;;
          backoff attempt ;;;
          fetch_attempts net search_engine search_url sels
                         timeout_seconds retries rest
      | Raise RequestException =>
          emit (EvPrint MsgRequestError) ;;;
          ret (Ok [])
      | Raise e => ret (Raise e)
      end
  end.

(** The engine the search runs with: the requested one, or ["google"] when
    the requested one is not in [SEARCH_ENGINES]. *)
Definition engine_of (search_engine : string) : string * engine_config :=
  match lookup_engine SEARCH_ENGINES search_engine with
  | Some engine_config => (search_engine, engine_config)
  | None => ("google", google_config)
  end.

Definition search_url (search_engine query : string) : string :=
  (engine_url (snd (engine_of search_engine)) ++ query)%string.

Definition fetch_search_results (net : network) (query search_engine : string)
  (timeout_seconds retries : Z) : io (result (list Dict.dict)) :=
  match lookup_engine SEARCH_ENGINES search_engine with
  | Some _ => ret tt
  | None => emit (EvPrint (MsgUnsupportedEngine search_engine))
  end ;;;
  let engine_config := snd (engine_of search_engine) in
  let sels := engine_selectors engine_config in
  fetch_attempts net (fst (engine_of search_engine))
                 (search_url search_engine query) sels
                 timeout_seconds retries (range retries).

(** ** scrape_page *)

Definition page_title (soup : node) : string :=
  match Soup.find "title" soup with
  | Some t => Soup.get_text_strip t
  | None => "No title found"
  end.

(** [meta_description["content"]] raises [KeyError] when the tag has no
    such attribute. *)
Definition page_description (soup : node) : result string :=
  match Soup.find_meta "description" soup with
  | Some meta_description =>
      match Soup.attr meta_description "content" with
      | Some v => Ok v
      | None => Raise (KeyError "content")
      end
  | None => Ok "No description found"
  end.

(** [soup.find('main') or soup.find('article') or soup.body] *)
Definition main_content_tags (soup : node) : option node :=
  match Soup.find "main" soup with
  | Some m => Some m
  | None =>
      match Soup.find "article" soup with
      | Some a => Some a
      | None => Soup.find "body" soup
      end
  end.

Definition irrelevant_tags : list string :=
  ["header"; "footer"; "nav"; "aside"; "script"; "style"].

Definition content_tags : list string :=
  ["p"; "h1"; "h2"; "h3"; "h4"; "h5"; "h6"; "li"].

Definition region_contents (region : node) : string :=
  let region := Soup.decompose_all irrelevant_tags region in
  PyStr.join " " (map Soup.get_text_strip (Soup.find_all content_tags region)).

Definition page_contents (soup : node) : string :=
  match main_content_tags soup with
  | Some region => region_contents region
  | None => "No content found in main tags."
  end.

(** The body of the [try] of one attempt. *)
Definition scrape_try (net : network) (url : string) (verbose : bool)
  (timeout_seconds : Z) (attempt : nat) : io (result Dict.dict) :=
  print verbose (MsgScraping url (attempt + 1)) ;;;
  r <- get_checked net url timeout_seconds attempt ;;
  match r with
  | Raise e => ret (Raise e)
  | Ok soup =>
      let title := page_title soup in
      match page_description soup with
      | Raise e => ret (Raise e)
      | Ok description =>
          let contents := page_contents soup in
          print verbose (MsgPageTitle (clean_str title)) ;;;
          print verbose (MsgPageDescription (clean_str description)) ;;;
          print verbose (MsgPageSnippet (substring 0 200 (clean_str contents))) ;;;
          ret (Ok [("url", url);
                   ("title", clean_str title);
                   ("description", clean_str description);
                   ("full_content", clean_str contents)])
      end
  end.

Fixpoint scrape_attempts (net : network) (url : string) (verbose : bool)
  (timeout_seconds retries : Z) (attempts : list nat) : io (option Dict.dict) :=
  match attempts with
  | [] =>
      print verbose (MsgScrapeFailed url retries) ;;;
      ret None
  | attempt :: rest =>
      r <- scrape_try net url verbose timeout_seconds attempt ;;
      match r with
      | Ok page => ret (Some page)
      | Raise e =>
          if is_request_exception e then
            print verbose (MsgScrapeError url (attempt + 1)) ;;;
            backoff attempt ;;;
            scrape_attempts net url verbose timeout_seconds retries rest
          else
            print verbose (MsgUnexpected url) ;;;
            ret None
      end
  end.

Definition scrape_page (net : network) (url : string) (verbose : bool)
  (timeout_seconds retries : Z) : io (option Dict.dict) :=
  match List.find (fun domain => PyStr.contains domain url) DOMAINS_TO_SKIP with
  | Some domain =>
      print verbose (MsgSkipping domain url) ;;;
      ret None
  | None =>
      scrape_attempts net url verbose timeout_seconds retries (range retries)
  end.

(** ** process_single_query: collecting the finished tasks

    [completed] lists the URLs of the submitted tasks in the order in which
    they finish; every task is one call of [scrape_page], and a result is
    appended when it is truthy. *)
Definition collect_scraped (outcomes : list (option Dict.dict)) : list Dict.dict :=
  fold_left
    (fun scraped_data scraped_result =>
       match scraped_result with
       | Some page => if Dict.to_bool page then scraped_data ++ [page]
                      else scraped_data
       | None => scraped_data
       end)
    outcomes [].

Definition scrape_completed (net : network) (verbose : bool)
  (timeout_seconds retries : Z) (completed : list string) : list Dict.dict :=
  collect_scraped
    (map (fun url => fst (scrape_page net url verbose timeout_seconds retries))
         completed).

(** ** process_scraped_data *)

(** One step of [{field: item.get(field) for field in fields if field in item}] *)
Definition keep_field (item acc : Dict.dict) (field : string) : Dict.dict :=
  match Dict.get item field with
  | Some v => Dict.set acc field v
  | None => acc
  end.

Definition filtered_item (item : Dict.dict) (fields : list string) : Dict.dict :=
  fold_left (keep_field item) fields [].

(** [if field not in filtered_item: filtered_item[field] = "Field not found"] *)
Definition fill_field (acc : Dict.dict) (field : string) : Dict.dict :=
  if Dict.mem field acc then acc
  else Dict.set acc field "Field not found".

Definition fill_missing (filtered : Dict.dict) (fields : list string) : Dict.dict :=
  fold_left fill_field fields filtered.

(** [item.get('url')] as a condition. *)
Definition has_url (item : Dict.dict) : bool :=
  match Dict.get item "url" with
  | Some v => PyStr.truthy v
  | None => false
  end.

Definition process_item (item : Dict.dict) (fields : list string) : Dict.dict :=
  fill_missing (filtered_item item fields) fields.

Definition process_scraped_data (scraped_data : list Dict.dict)
  (fields : list string) : list Dict.dict :=
  fold_left
    (fun processed_data item =>
       if has_url item then processed_data ++ [process_item item fields]
       else processed_data)
    scraped_data [].

(** ** The failure classes of the specification

    Transient: HTTP 500 and 503, and timeouts.  Terminal: every other HTTP
    error status and every other request exception. *)

Definition transient (e : exn) : bool :=
  match e with
  | HTTPError c => ((c =? 500) || (c =? 503))%Z
  | Timeout => true
  | _ => false
  end.

Definition terminal (e : exn) : bool :=
  match e with
  | HTTPError c => negb ((c =? 500) || (c =? 503))%Z
  | RequestException => true
  | _ => false
  end.

Definition transient_failure (o : get_outcome) : bool :=
  match checked o with Raise e => transient e | Ok _ => false end.

Definition terminal_failure (o : get_outcome) : bool :=
  match checked o with Raise e => terminal e | Ok _ => false end.

Definition request_failure (o : get_outcome) : bool :=
  match checked o with Raise e => is_request_exception e | Ok _ => false end.

(** The record the [try] of [scrape_page] builds from a parsed page; the
    lookup of the description is the one step that can raise. *)
Definition extract_page (url : string) (soup : node) : result Dict.dict :=
  match page_description soup with
  | Raise e => Raise e
  | Ok description =>
      Ok [("url", url);
          ("title", clean_str (page_title soup));
          ("description", clean_str description);
          ("full_content", clean_str (page_contents soup))]
  end.

(** The value of the [try] of attempt [attempt] of [scrape_page]. *)
Definition try_result (net : network) (url : string) (attempt : nat)
  : result Dict.dict :=
  match checked (net url attempt) with
  | Raise e => Raise e
  | Ok soup => extract_page url soup
  end.

(** [url] is caught by the skip test at the head of [scrape_page]. *)
Definition skipped (url : string) : bool :=
  existsb (fun domain => PyStr.contains domain url) DOMAINS_TO_SKIP.

(** ** Sample pages and networks *)

Definition empty_page : node := Soup.soup [].

(** A network that answers every request alike. *)
Definition always (o : get_outcome) : network := fun _ _ => o.

(** A network that answers the first [n] attempts with [first] and the
    later ones with [later]. *)
Definition first_then (n : nat) (first later : get_outcome) : network :=
  fun _ attempt => if (attempt <? n)%nat then first else later.

(** A page whose description tag has no [content] attribute. *)
Definition page_without_content : node :=
  Soup.soup [Elem "html" []
    [Elem "head" [] [Elem "meta" [("name", "description")] []];
     Elem "body" [] [Elem "p" [] [Text "text"]]]].

(** A result container of a Google page with a link and no [h3]. *)
Definition container_without_title : Soup.located :=
  ([("[document]", [])],
   Elem "div" [("class", "g tF2Cxc")]
     [Elem "a" [("href", "/x")] [Text "Foo"]]).

(** The record a container contributes, as a list of zero or one record. *)
Definition contribution (sels : selectors) (link_container : Soup.located)
  : list Dict.dict :=
  match extract_result sels link_container with
  | Some r => [r]
  | None => []
  end.

(** The page [<main><header>nav</header><p>Hello  world</p></main>]. *)
Definition hello_page : node :=
  Soup.soup
    [Elem "main" []
       [Elem "header" [] [Text "nav"]; Elem "p" [] [Text "Hello  world"]]].

(** ** sanitize_filename *)

Module PyRe.

(** The class [\w] of [re] on a [str]: letters, digits (also the Latin-1
    ones) and the underscore. *)
Definition is_word_char (c : ascii) : bool :=
  let n := nat_of_ascii c in
  (((48 <=? n) && (n <=? 57)) || ((65 <=? n) && (n <=? 90)) || (n =? 95)
   || ((97 <=? n) && (n <=? 122)) || (n =? 170)
   || ((178 <=? n) && (n <=? 179)) || (n =? 181)
   || ((185 <=? n) && (n <=? 186)) || ((188 <=? n) && (n <=? 190))
   || ((192 <=? n) && (n <=? 214)) || ((216 <=? n) && (n <=? 246))
   || ((248 <=? n) && (n <=? 255)))%nat.

(** The class [[\w\s-]]; [\s] is [str.isspace]. *)
Definition is_kept (c : ascii) : bool :=
  is_word_char c || PyStr.isspace c || Ascii.eqb c "-".

(** [re.sub(r'[^\w\s-]', '_', s)]: every character outside the class is
    replaced, one by one. *)
Fixpoint sub_invalid (s : string) : string :=
  match s with
  | EmptyString => EmptyString
  | String c s' => String (if is_kept c then c else "_"%char) (sub_invalid s')
  end.

(** [re.sub(r'\s+', '_', s)]: every maximal run of whitespace is replaced
    by one underscore. *)
Fixpoint sub_spaces (s : string) : string :=
  match s with
  | EmptyString => EmptyString
  | String c s' =>
      if PyStr.isspace c then
        if PyStr.leading_space s' then sub_spaces s'
        else String "_" (sub_spaces s')
      else String c (sub_spaces s')
  end.

(** Every character of the string passes the test. *)
Fixpoint all_chars (p : ascii -> bool) (s : string) : bool :=
  match s with
  | EmptyString => true
  | String c s' => p c && all_chars p s'
  end.

(** The characters a sanitized name is made of: [\w] and the hyphen. *)
Definition is_name_char (c : ascii) : bool :=
  is_word_char c || Ascii.eqb c "-".

End PyRe.

Definition sanitize_filename (query : string) : string :=
  let safe_name := PyStr.strip (PyRe.sub_invalid query) in
  let safe_name := PyRe.sub_spaces safe_name in
  safe_name.

(** ** The field list typed by the user

    [parse_fields] is the comprehension [[f.strip() for f in
    fields.split(',')]].  [main] applies it to [--fields] whenever the
    option is given (lines 446 and 447); [interactive_mode] applies it to
    the answer to its prompt only when the answer is not empty, and keeps
    the configured fields otherwise (line 379, [interactive_fields]
    below).  The prompt shows [','.join(config['output_fields'])] as the
    default. *)

(** [s.split(sep)] for a separator of one character. *)
Fixpoint split_on (sep : ascii) (s : string) : list string :=
  match s with
  | EmptyString => [EmptyString]
  | String c s' =>
      if Ascii.eqb c sep then EmptyString :: split_on sep s'
      else match split_on sep s' with
           | w :: ws => String c w :: ws
           | [] => [String c EmptyString]
           end
  end.

Definition parse_fields (fields : string) : list string :=
  map PyStr.strip (split_on "," fields).

(** [[f.strip() for f in fields_choice.split(',')] if fields_choice else
    config['output_fields']] *)
Definition interactive_fields (fields_choice : string)
  (output_fields : list string) : list string :=
  if PyStr.truthy fields_choice then parse_fields fields_choice
  else output_fields.

(** ** Further readings of a trace *)

(** The seconds slept in a trace. *)
Definition total_sleep (t : list event) : Z := fold_right Z.add 0%Z (sleeps t).

(** The number of occurrences of a character in a string. *)
Fixpoint count_char (x : ascii) (s : string) : nat :=
  match s with
  | EmptyString => 0
  | String c s' => (if Ascii.eqb c x then 1 else 0) + count_char x s'
  end.

(** [DEFAULT_CONFIG["output_fields"]] *)
Definition DEFAULT_OUTPUT_FIELDS : list string :=
  ["url"; "title"; "description"; "full_content"].

(** ** interactive_mode: the name of the file to save

    Lines 381 to 389: the answers to the two prompts, the query and the
    format give the file name.  [splitext_base] stands for
    [os.path.splitext(...)[0]]. *)

(** [s.endswith(suffix)] *)
Fixpoint ends_with (suffix s : string) : bool :=
  String.eqb s suffix ||
  match s with
  | EmptyString => false
  | String _ s' => ends_with suffix s'
  end.

(** [answer.lower() == 'y'] *)
Definition is_yes (answer : string) : bool :=
  String.eqb answer "y" || String.eqb answer "Y".

Definition interactive_filename (splitext_base : string -> string)
  (query final_format save_per_query filename : string) : string :=
  if is_yes save_per_query then
    (sanitize_filename query ++ "." ++ final_format)%string
  else
    let filename := if String.eqb filename "" then "my_results" else filename in
    if negb (ends_with ("." ++ final_format) filename)
    then (splitext_base filename ++ "." ++ final_format)%string
    else filename.

(** ** Ways of stating where something is *)

(** Letter case does not matter in a host name: [lower_letters] turns the
    letters A to Z of a text into a to z. *)
Definition lower_letter (c : ascii) : ascii :=
  let n := nat_of_ascii c in
  if ((65 <=? n) && (n <=? 90))%nat then ascii_of_nat (n + 32) else c.

Fixpoint lower_letters (s : string) : string :=
  match s with
  | EmptyString => EmptyString
  | String c s' => String (lower_letter c) (lower_letters s')
  end.




(** * Properties *)

(** ** Strings: [split], [join], [strip] *)

Module PyStrFacts.
Import PyStr.

Lemma append_empty_r (s : string) : (s ++ "")%string = s.
Proof. induction s as [|c s IH]; simpl; [reflexivity | now rewrite IH]. Qed.

Lemma append_assoc (a b c : string) :
  ((a ++ b) ++ c)%string = (a ++ (b ++ c))%string.
Proof. induction a as [|x a IH]; simpl; [reflexivity | now rewrite IH]. Qed.

Lemma is_empty_app (a b : string) :
  is_empty (a ++ b) = is_empty a && is_empty b.
Proof. destruct a; reflexivity. Qed.

Lemma space_is_space : isspace " " = true.
Proof. reflexivity. Qed.

(** *** What [split] returns *)

Lemma split_scan_shape (s : string) :
  no_space (fst (split_scan s)) = true /\ Forall is_word (snd (split_scan s)).
Proof.
  induction s as [|c s [Hw Hws]]; simpl.
  - split; [reflexivity | constructor].
  - destruct (split_scan s) as [w ws]; simpl in *.
    destruct (isspace c) eqn:Hc; simpl.
    + split; [reflexivity|].
      unfold push_word. destruct (is_empty w) eqn:He; [assumption|].
      constructor; [split|]; assumption.
    + rewrite Hc. simpl. split; assumption.
Qed.

Lemma split_words (s : string) : Forall is_word (split s).
Proof.
  unfold split. pose proof (split_scan_shape s) as [Hw Hws].
  destruct (split_scan s) as [w ws]; simpl in *.
  unfold push_word. destruct (is_empty w) eqn:He; [assumption|].
  constructor; [split|]; assumption.
Qed.

(** *** Scanning a string that starts with a whitespace-free piece *)

Lemma split_scan_app (w x : string) :
  no_space w = true ->
  split_scan (w ++ x) =
  ((w ++ fst (split_scan x))%string, snd (split_scan x)).
Proof.
  induction w as [|c w IH]; simpl; intros H.
  - now destruct (split_scan x).
  - apply andb_true_iff in H as [Hc Hw]. apply negb_true_iff in Hc.
    rewrite (IH Hw), Hc. reflexivity.
Qed.

Lemma split_scan_space (x : string) :
  split_scan (String " " x) = (EmptyString, split x).
Proof.
  simpl. unfold split. destruct (split_scan x) as [w ws].
  reflexivity.
Qed.

Lemma split_join (ws : list string) :
  Forall is_word ws -> split (join " " ws) = ws.
Proof.
  induction 1 as [|w ws [Hne Hns] Hws IH]; [reflexivity|].
  destruct ws as [|w' ws'].
  - simpl. unfold split. rewrite <- (append_empty_r w) at 1.
    rewrite (split_scan_app w "" Hns). simpl.
    rewrite append_empty_r. unfold push_word. now rewrite Hne.
  - change (join " " (w :: w' :: ws'))
      with (w ++ String " " (join " " (w' :: ws')))%string.
    unfold split at 1. rewrite (split_scan_app _ _ Hns), split_scan_space.
    rewrite IH. cbn [fst snd]. rewrite append_empty_r.
    unfold push_word. now rewrite Hne.
Qed.

(** *** The shape of a joined list of words *)

Lemma leading_space_word (w x : string) :
  is_word w -> leading_space (w ++ x) = false.
Proof.
  intros [Hne Hns]. destruct w as [|c w]; [discriminate|]. simpl in *.
  apply andb_true_iff in Hns as [Hc _]. now apply negb_true_iff in Hc.
Qed.

Lemma trailing_space_app (a b : string) :
  is_empty b = false -> trailing_space (a ++ b) = trailing_space b.
Proof.
  intros Hb. induction a as [|c a IH]; simpl; [reflexivity|].
  rewrite is_empty_app, Hb, andb_false_r. exact IH.
Qed.

Lemma trailing_space_word (w : string) :
  no_space w = true -> trailing_space w = false.
Proof.
  induction w as [|c w IH]; simpl; intros H; [reflexivity|].
  apply andb_true_iff in H as [Hc Hw]. apply negb_true_iff in Hc.
  destruct (is_empty w); auto.
Qed.

Lemma has_space_run_app (w x : string) :
  no_space w = true -> has_space_run (w ++ x) = has_space_run x.
Proof.
  induction w as [|c w IH]; simpl; intros H; [reflexivity|].
  apply andb_true_iff in H as [Hc Hw]. apply negb_true_iff in Hc.
  rewrite Hc. simpl. auto.
Qed.

Lemma plain_spaces_app (a b : string) :
  plain_spaces (a ++ b) = plain_spaces a && plain_spaces b.
Proof.
  induction a as [|c a IH]; simpl; [reflexivity|].
  now rewrite IH, andb_assoc.
Qed.

Lemma plain_spaces_word (w : string) :
  no_space w = true -> plain_spaces w = true.
Proof.
  induction w as [|c w IH]; simpl; intros H; [reflexivity|].
  apply andb_true_iff in H as [Hc Hw]. rewrite Hc. simpl. auto.
Qed.

Lemma join_words_tidy (ws : list string) :
  Forall is_word ws ->
  tidy (join " " ws) /\ (ws <> [] -> is_empty (join " " ws) = false).
Proof.
  induction 1 as [|w ws Hw Hws [[Hl [Ht [Hr Hp]]] Hne]].
  - repeat split; congruence.
  - destruct ws as [|w' ws'].
    + simpl. destruct Hw as [He Hns]. repeat split.
      * rewrite <- (append_empty_r w). now apply leading_space_word.
      * now apply trailing_space_word.
      * rewrite <- (append_empty_r w), has_space_run_app; auto.
      * now apply plain_spaces_word.
      * auto.
    + change (join " " (w :: w' :: ws'))
        with (w ++ String " " (join " " (w' :: ws')))%string.
      set (u := join " " (w' :: ws')) in *.
      assert (Hu : is_empty u = false) by (apply Hne; discriminate).
      destruct Hw as [He Hns]. repeat split.
      * now apply leading_space_word.
      * rewrite trailing_space_app by reflexivity. simpl. now rewrite Hu.
      * rewrite has_space_run_app by assumption. simpl.
        now rewrite Hl, Hr.
      * rewrite plain_spaces_app, plain_spaces_word by assumption.
        simpl. exact Hp.
      * intros _. rewrite is_empty_app, He. reflexivity.
Qed.

(** *** [strip] leaves a tidy string alone *)

Lemma lstrip_id (s : string) : leading_space s = false -> lstrip s = s.
Proof. destruct s as [|c s]; simpl; [reflexivity | now intros ->]. Qed.

Lemma rstrip_id (s : string) : trailing_space s = false -> rstrip s = s.
Proof.
  induction s as [|c s IH]; simpl; [reflexivity|].
  destruct (is_empty s) eqn:He.
  - intros ->. destruct s; [reflexivity | discriminate].
  - intros H. rewrite (IH H), He, andb_false_r. reflexivity.
Qed.

Lemma strip_tidy (s : string) : tidy s -> strip s = s.
Proof.
  intros [Hl [Ht _]]. unfold strip. rewrite (lstrip_id _ Hl).
  now apply rstrip_id.
Qed.

(** *** From the tests to positions in the string *)

Lemma trailing_space_last (pre : string) (c : ascii) :
  trailing_space (pre ++ String c "") = isspace c.
Proof. now rewrite trailing_space_app. Qed.

Lemma has_space_run_at (pre : string) (c1 c2 : ascii) (post : string) :
  has_space_run (pre ++ String c1 (String c2 post)) = false ->
  isspace c1 && isspace c2 = false.
Proof.
  induction pre as [|a pre IH]; simpl; intros H.
  - now apply orb_false_iff in H as [H _].
  - apply orb_false_iff in H as [_ H]. auto.
Qed.

Lemma plain_spaces_at (pre : string) (c : ascii) (post : string) :
  plain_spaces (pre ++ String c post) = true ->
  isspace c = true -> c = " "%char.
Proof.
  rewrite plain_spaces_app. simpl. intros H Hc.
  apply andb_true_iff in H as [_ H]. apply andb_true_iff in H as [H _].
  rewrite Hc in H. simpl in H. now apply Ascii.eqb_eq.
Qed.

End PyStrFacts.

(** ** clean_text *)

Module CleanText.
Import PyStr PyStrFacts.

Lemma clean_str_join (s : string) : clean_str s = join " " (split s).
Proof.
  unfold clean_str, clean_text. apply strip_tidy.
  apply join_words_tidy, split_words.
Qed.

Lemma clean_str_tidy (s : string) : tidy (clean_str s).
Proof. rewrite clean_str_join. apply join_words_tidy, split_words. Qed.

Lemma clean_str_idempotent (s : string) :
  clean_str (clean_str s) = clean_str s.
Proof.
  rewrite (clean_str_join (clean_str s)), (clean_str_join s).
  now rewrite split_join by apply split_words.
Qed.

(** C9.  [clean_text] returns the empty string for every argument that is
    not a [str].  For a [str] it returns the words of the text — its
    maximal pieces free of whitespace — joined by single spaces, so that
    every run of whitespace between two words has become one space and
    the whitespace around the text is gone: the result has the same words
    as the text, starts and ends with no whitespace, has no two whitespace
    characters in a row and no whitespace other than the plain space; and
    it is a fixed point of [clean_text]. *)
Theorem clean_text_total_idempotent :
  (forall v : pyvalue, (forall s, v <> PyStr s) -> clean_text v = "") /\
  (forall s : string,
      let t := clean_text (PyStr s) in
      t = join " " (split s) /\
      split t = split s /\
      (forall c rest, t = String c rest -> isspace c = false) /\
      (forall pre c, t = (pre ++ String c "")%string -> isspace c = false) /\
      (forall pre c1 c2 post,
          t = (pre ++ String c1 (String c2 post))%string ->
          isspace c1 = true -> isspace c2 = false) /\
      (forall pre c post,
          t = (pre ++ String c post)%string -> isspace c = true -> c = " "%char) /\
      clean_text (PyStr t) = t).
Proof.
  split.
  - intros v Hv. destruct v; try reflexivity. now elim (Hv s).
  - intros s. cbv zeta. change (clean_text (PyStr s)) with (clean_str s).
    destruct (clean_str_tidy s) as [Hl [Ht [Hr Hp]]].
    split; [apply clean_str_join|].
    split; [rewrite clean_str_join; apply split_join, split_words|].
    repeat split.
    + intros c rest E. rewrite E in Hl. exact Hl.
    + intros pre c E. rewrite E, trailing_space_last in Ht. exact Ht.
    + intros pre c1 c2 post E Hc1. rewrite E in Hr.
      apply has_space_run_at in Hr. rewrite Hc1 in Hr. exact Hr.
    + intros pre c post E. rewrite E in Hp. now apply (plain_spaces_at pre c post).
    + apply clean_str_idempotent.
Qed.

Lemma clean_text_total_idempotent_witness :
  clean_text (PyInt 7) = "" /\
  clean_text (PyStr "  Hello
   world  ") = join " " (split "  Hello
   world  ") /\
  clean_text (PyStr (clean_text (PyStr "  Hello
   world  "))) = "Hello world".
Proof.
  split; [|split].
  - apply (proj1 clean_text_total_idempotent). discriminate.
  - exact (proj1 (proj2 clean_text_total_idempotent "  Hello
   world  ")).
  - exact (proj2 (proj2 (proj2 (proj2 (proj2 (proj2
             (proj2 clean_text_total_idempotent "  Hello
   world  "))))))).
Defined.

End CleanText.

(** ** The trace of a fetch loop *)

Module Trace.

Lemma schedule_app (t1 t2 : list event) :
  schedule (t1 ++ t2) = schedule t1 ++ schedule t2.
Proof. apply filter_app. Qed.

Lemma schedule_print (verbose : bool) (m : message) :
  schedule (snd (print verbose m)) = [].
Proof. now destruct verbose. Qed.

Lemma schedule_rounds_app (url : string) (tmo : Z) (l1 l2 : list nat) :
  flat_map (retry_round url tmo) (l1 ++ l2) =
  flat_map (retry_round url tmo) l1 ++ flat_map (retry_round url tmo) l2.
Proof. apply flat_map_app. Qed.

Lemma sleep_in_schedule (d : Z) (t : list event) :
  In (EvSleep d) t -> In (EvSleep d) (schedule t).
Proof. intros H. apply filter_In. now split. Qed.

Lemma backoff_inj (a k : nat) :
  EvSleep (2 ^ Z.of_nat k) = EvSleep (2 ^ Z.of_nat a) -> k = a.
Proof.
  intros H. injection H as H.
  apply Z.pow_inj_r in H; lia.
Qed.

End Trace.

(** ** fetch_search_results: the retry loop *)

Module Fetch.
Import Trace.

Section FetchLoop.
Variable net : network.
Variables search_engine url : string.
Variable sels : selectors.
Variables timeout_seconds retries : Z.

Local Abbreviation loop :=
  (fetch_attempts net search_engine url sels timeout_seconds retries).

Lemma fetch_loop_exhausted :
  loop [] = (Ok [], [EvPrint (MsgFetchFailed retries)]).
Proof. reflexivity. Qed.

(** One turn of the loop, written with the outcome of the request. *)
Lemma fetch_loop_cons (attempt : nat) (rest : list nat) :
  loop (attempt :: rest) =
  match checked (net url attempt) with
  | Ok soup =>
      match Soup.select (sel_result_link_container sels) ([], soup) with
      | c :: cs =>
          (Ok (extract_results sels (c :: cs)), [EvGet url timeout_seconds])
      | [] =>
          (Ok [], [EvGet url timeout_seconds;
                   EvPrint (MsgNoResults search_engine)])
      end
  | Raise (HTTPError status_code) =>
      if ((status_code =? 500) || (status_code =? 503))%Z then
        (fst (loop rest),
         EvGet url timeout_seconds
           :: EvPrint (MsgServerError status_code (attempt + 1))
           :: EvSleep (2 ^ Z.of_nat attempt) :: snd (loop rest))
      else
        (Ok [], [EvGet url timeout_seconds; EvPrint (MsgHTTPError status_code)])
  | Raise Timeout =>
      (fst (loop rest),
       EvGet url timeout_seconds :: EvPrint (MsgTimeout (attempt + 1))
         :: EvSleep (2 ^ Z.of_nat attempt) :: snd (loop rest))
  | Raise RequestException =>
      (Ok [], [EvGet url timeout_seconds; EvPrint MsgRequestError])
  | Raise e => (Raise e, [EvGet url timeout_seconds])
  end.
Proof.
  cbn [fetch_attempts]. unfold get_checked, backoff, bind, emit, ret.
  cbn [app].
  destruct (checked (net url attempt)) as [soup|e].
  - now destruct (Soup.select (sel_result_link_container sels) ([], soup)).
  - destruct e; try reflexivity.
    + destruct ((status_code =? 500) || (status_code =? 503))%Z;
        [|reflexivity].
      now destruct (loop rest).
    + now destruct (loop rest).
Qed.

Lemma fetch_loop_transient (attempt : nat) (rest : list nat) :
  transient_failure (net url attempt) = true ->
  exists m,
    loop (attempt :: rest) =
    (fst (loop rest),
     EvGet url timeout_seconds :: EvPrint m
       :: EvSleep (2 ^ Z.of_nat attempt) :: snd (loop rest)).
Proof.
  unfold transient_failure. rewrite fetch_loop_cons.
  destruct (checked (net url attempt)) as [soup|e]; [discriminate|].
  destruct e; try discriminate; intros H; simpl in H.
  - rewrite H. eexists. reflexivity.
  - eexists. reflexivity.
Qed.

Lemma fetch_loop_terminal (attempt : nat) :
  terminal_failure (net url attempt) = true ->
  exists m,
    (forall rest,
       loop (attempt :: rest) =
       (Ok [], [EvGet url timeout_seconds; EvPrint m])) /\
    (m = MsgRequestError \/ exists c, m = MsgHTTPError c).
Proof.
  unfold terminal_failure.
  destruct (checked (net url attempt)) as [soup|e] eqn:C; [discriminate|].
  destruct e; try discriminate; intros H; simpl in H.
  - apply negb_true_iff in H.
    exists (MsgHTTPError status_code). split.
    + intros rest. now rewrite fetch_loop_cons, C, H.
    + right. now exists status_code.
  - exists MsgRequestError. split.
    + intros rest. now rewrite fetch_loop_cons, C.
    + now left.
Qed.

Lemma fetch_loop_no_results (attempt : nat) (rest : list nat) (soup : node) :
  checked (net url attempt) = Ok soup ->
  Soup.select (sel_result_link_container sels) ([], soup) = [] ->
  loop (attempt :: rest) =
  (Ok [], [EvGet url timeout_seconds; EvPrint (MsgNoResults search_engine)]).
Proof. intros Hc Hs. now rewrite fetch_loop_cons, Hc, Hs. Qed.

(** A run of transient failures: each attempt is one request followed by
    its backoff, and the loop goes on with what is left. *)
Lemma fetch_loop_transient_prefix (n : nat) :
  forall (a : nat) (rest : list nat),
    (forall k, a <= k < a + n -> transient_failure (net url k) = true) ->
    exists t0,
      loop (seq a n ++ rest) = (fst (loop rest), t0 ++ snd (loop rest)) /\
      schedule t0 = flat_map (retry_round url timeout_seconds) (seq a n).
Proof.
  induction n as [|n IH]; intros a rest H.
  - exists []. split; [|reflexivity].
    simpl. apply surjective_pairing.
  - destruct (IH (S a) rest) as [t0 [E S0]].
    { intros k Hk. apply H. lia. }
    destruct (fetch_loop_transient a (seq (S a) n ++ rest)) as [m Em].
    { apply H. lia. }
    exists (EvGet url timeout_seconds :: EvPrint m
              :: EvSleep (2 ^ Z.of_nat a) :: t0).
    split.
    + simpl seq. simpl app. rewrite Em, E. reflexivity.
    + change (schedule (EvGet url timeout_seconds :: EvPrint m
                :: EvSleep (2 ^ Z.of_nat a) :: t0))
        with (retry_round url timeout_seconds a ++ schedule t0).
      rewrite S0. reflexivity.
Qed.
End FetchLoop.

(** The entry point adds at most one print in front of the loop. *)
Lemma fetch_search_results_loop net query search_engine timeout_seconds retries :
  exists notice,
    schedule notice = [] /\
    fetch_search_results net query search_engine timeout_seconds retries =
    let r := fetch_attempts net (fst (engine_of search_engine))
               (search_url search_engine query)
               (engine_selectors (snd (engine_of search_engine)))
               timeout_seconds retries (range retries) in
    (fst r, notice ++ snd r).
Proof.
  unfold fetch_search_results.
  destruct (lookup_engine SEARCH_ENGINES search_engine);
    unfold bind, emit, ret; cbv zeta;
    match goal with |- context [fetch_attempts ?a ?b ?c ?d ?e ?f ?g] =>
      destruct (fetch_attempts a b c d e f g) end.
  - exists []. split; reflexivity.
  - exists [EvPrint (MsgUnsupportedEngine search_engine)]. split; reflexivity.
Qed.

(** When every attempt fails transiently, the search fetch makes one
    request per attempt, sleeps [2 ^ attempt] after every one of them, the
    last included, and returns the empty list after a last print. *)
Lemma fetch_search_results_all_transient
  net query search_engine timeout_seconds retries :
  (forall k, k < Z.to_nat retries ->
     transient_failure (net (search_url search_engine query) k) = true) ->
  let r := fetch_search_results net query search_engine timeout_seconds retries in
  fst r = Ok [] /\
  schedule (snd r) =
    flat_map (retry_round (search_url search_engine query) timeout_seconds)
             (range retries) /\
  exists t, snd r = t ++ [EvPrint (MsgFetchFailed retries)].
Proof.
  intros H.
  destruct (fetch_search_results_loop net query search_engine
              timeout_seconds retries) as [notice [Hn E]].
  cbv zeta in *. rewrite E. unfold range.
  destruct (fetch_loop_transient_prefix net (fst (engine_of search_engine))
              (search_url search_engine query)
              (engine_selectors (snd (engine_of search_engine)))
              timeout_seconds retries (Z.to_nat retries) 0 [])
    as [t0 [E0 S0]].
  { intros k Hk. apply H. lia. }
  rewrite app_nil_r in E0. rewrite E0. simpl.
  rewrite !schedule_app, Hn, S0. simpl. rewrite app_nil_r.
  split; [reflexivity|]. split; [reflexivity|].
  exists (notice ++ t0). now rewrite app_assoc.
Qed.

(** A run of [k] transient failures followed by an attempt at which the
    loop returns [v] after one request and one print. *)
Lemma fetch_search_results_ends
  net query search_engine timeout_seconds retries (k : nat) v m :
  (Z.of_nat k < retries)%Z ->
  (forall j, j < k ->
     transient_failure (net (search_url search_engine query) j) = true) ->
  (forall rest,
     fetch_attempts net (fst (engine_of search_engine))
       (search_url search_engine query)
       (engine_selectors (snd (engine_of search_engine)))
       timeout_seconds retries (k :: rest) =
     (v, [EvGet (search_url search_engine query) timeout_seconds; EvPrint m])) ->
  let r := fetch_search_results net query search_engine timeout_seconds retries in
  fst r = v /\
  schedule (snd r) =
    flat_map (retry_round (search_url search_engine query) timeout_seconds)
             (seq 0 k)
    ++ [EvGet (search_url search_engine query) timeout_seconds] /\
  exists t, snd r = t ++ [EvPrint m].
Proof.
  intros Hk Hpre Hend.
  destruct (fetch_search_results_loop net query search_engine
              timeout_seconds retries) as [notice [Hn E]].
  cbv zeta in *. rewrite E.
  assert (R : range retries = seq 0 k ++ k :: seq (S k) (Z.to_nat retries - S k)).
  { unfold range.
    replace (Z.to_nat retries) with (k + S (Z.to_nat retries - S k)) at 1 by lia.
    rewrite seq_app. reflexivity. }
  rewrite R.
  destruct (fetch_loop_transient_prefix net (fst (engine_of search_engine))
              (search_url search_engine query)
              (engine_selectors (snd (engine_of search_engine)))
              timeout_seconds retries k 0
              (k :: seq (S k) (Z.to_nat retries - S k)))
    as [t0 [E0 S0]].
  { intros j Hj. apply Hpre. lia. }
  rewrite E0, Hend. cbn [fst snd]. split; [reflexivity|]. split.
  - rewrite !schedule_app, Hn, S0. reflexivity.
  - exists (notice ++ t0 ++ [EvGet (search_url search_engine query)
                                   timeout_seconds]).
    rewrite <- !app_assoc. reflexivity.
Qed.

End Fetch.

(** ** scrape_page: the retry loop *)

Module Scrape.
Import Trace.

Section ScrapeLoop.
Variable net : network.
Variable url : string.
Variable verbose : bool.
Variables timeout_seconds retries : Z.

Local Abbreviation loop :=
  (scrape_attempts net url verbose timeout_seconds retries).

(** One [try]: one request, and the value [try_result] describes. *)
Lemma scrape_try_spec (attempt : nat) :
  exists t,
    scrape_try net url verbose timeout_seconds attempt =
    (try_result net url attempt, t) /\
    schedule t = [EvGet url timeout_seconds].
Proof.
  unfold scrape_try, try_result, extract_page, get_checked, print,
    bind, emit, ret.
  destruct verbose; simpl;
    (destruct (checked (net url attempt)) as [soup|e];
     [destruct (page_description soup) as [description|e]|]);
    simpl; eexists; split; reflexivity.
Qed.

Lemma scrape_loop_cons (attempt : nat) (rest : list nat) :
  loop (attempt :: rest) =
  (r <- scrape_try net url verbose timeout_seconds attempt ;;
   match r with
   | Ok page => ret (Some page)
   | Raise e =>
       if is_request_exception e then
         print verbose (MsgScrapeError url (attempt + 1)) ;;;
         backoff attempt ;;;
         loop rest
       else
         print verbose (MsgUnexpected url) ;;;
         ret None
   end).
Proof. reflexivity. Qed.

Lemma scrape_loop_exhausted : fst (loop []) = None /\ schedule (snd (loop [])) = [].
Proof. unfold loop. simpl. now destruct verbose. Qed.

(** A request exception: the backoff, then the next attempt. *)
Lemma scrape_loop_request_exception (attempt : nat) (rest : list nat) (e : exn) :
  try_result net url attempt = Raise e ->
  is_request_exception e = true ->
  exists t,
    loop (attempt :: rest) = (fst (loop rest), t ++ snd (loop rest)) /\
    schedule t = retry_round url timeout_seconds attempt.
Proof.
  intros Ht He. rewrite scrape_loop_cons.
  destruct (scrape_try_spec attempt) as [t [E S0]].
  rewrite E, Ht. unfold bind at 1. rewrite He.
  unfold backoff, print, bind, emit, ret.
  destruct (loop rest) as [v tr]. simpl.
  destruct verbose.
  - exists (t ++ [EvPrint (MsgScrapeError url (attempt + 1));
                  EvSleep (2 ^ Z.of_nat attempt)]).
    split.
    + rewrite <- app_assoc. reflexivity.
    + rewrite schedule_app, S0. reflexivity.
  - exists (t ++ [EvSleep (2 ^ Z.of_nat attempt)]).
    split.
    + rewrite <- app_assoc. reflexivity.
    + rewrite schedule_app, S0. reflexivity.
Qed.

(** Any other exception: the loop is left at once, with [None]. *)
Lemma scrape_loop_other_exception (attempt : nat) (rest : list nat) (e : exn) :
  try_result net url attempt = Raise e ->
  is_request_exception e = false ->
  exists t,
    loop (attempt :: rest) = (None, t) /\
    schedule t = [EvGet url timeout_seconds].
Proof.
  intros Ht He. rewrite scrape_loop_cons.
  destruct (scrape_try_spec attempt) as [t [E S0]].
  rewrite E, Ht. unfold bind at 1. rewrite He.
  unfold print, bind, emit, ret.
  destruct verbose.
  - exists (t ++ [EvPrint (MsgUnexpected url)] ++ []). split; [reflexivity|].
    rewrite schedule_app, S0. reflexivity.
  - exists (t ++ [] ++ []). split; [reflexivity|].
    rewrite schedule_app, S0. reflexivity.
Qed.

(** A page: the loop is left at once, with the page. *)
Lemma scrape_loop_page (attempt : nat) (rest : list nat) (page : Dict.dict) :
  try_result net url attempt = Ok page ->
  exists t,
    loop (attempt :: rest) = (Some page, t) /\
    schedule t = [EvGet url timeout_seconds].
Proof.
  intros Ht. rewrite scrape_loop_cons.
  destruct (scrape_try_spec attempt) as [t [E S0]].
  rewrite E, Ht. unfold bind, ret.
  exists (t ++ []). split; [reflexivity|].
  rewrite schedule_app, S0. reflexivity.
Qed.

Lemma scrape_loop_request_prefix (n : nat) :
  forall (a : nat) (rest : list nat),
    (forall k, a <= k < a + n ->
       exists e, try_result net url k = Raise e /\
                 is_request_exception e = true) ->
    exists t0,
      loop (seq a n ++ rest) = (fst (loop rest), t0 ++ snd (loop rest)) /\
      schedule t0 = flat_map (retry_round url timeout_seconds) (seq a n).
Proof.
  induction n as [|n IH]; intros a rest H.
  - exists []. split; [|reflexivity].
    simpl. apply surjective_pairing.
  - destruct (IH (S a) rest) as [t0 [E S0]].
    { intros k Hk. apply H. lia. }
    destruct (H a) as [e [Ht He]]; [lia|].
    destruct (scrape_loop_request_exception a (seq (S a) n ++ rest) e Ht He)
      as [t [Et St]].
    exists (t ++ t0). split.
    + simpl seq. simpl app. rewrite Et, E. simpl.
      now rewrite app_assoc.
    + rewrite schedule_app, St, S0. reflexivity.
Qed.
(** A backoff is only ever slept after a request exception. *)
Lemma scrape_loop_sleep_cause (n : nat) :
  forall (a k : nat),
    In (EvSleep (2 ^ Z.of_nat k)) (snd (loop (seq a n))) ->
    exists e, try_result net url k = Raise e /\
              is_request_exception e = true.
Proof.
  induction n as [|n IH]; intros a k Hin.
  - simpl seq in Hin. apply sleep_in_schedule in Hin.
    rewrite (proj2 scrape_loop_exhausted) in Hin. destruct Hin.
  - simpl seq in Hin.
    destruct (try_result net url a) as [page|e] eqn:T.
    + destruct (scrape_loop_page a (seq (S a) n) page T) as [t [E S0]].
      rewrite E in Hin. cbn [snd] in Hin. apply sleep_in_schedule in Hin.
      rewrite S0 in Hin. destruct Hin as [Hin|[]]. discriminate Hin.
    + destruct (is_request_exception e) eqn:R.
      * destruct (scrape_loop_request_exception a (seq (S a) n) e T R)
          as [t [E S0]].
        rewrite E in Hin. cbn [snd] in Hin.
        apply in_app_or in Hin as [Hin|Hin].
        -- apply sleep_in_schedule in Hin. rewrite S0 in Hin.
           destruct Hin as [Hin|[Hin|[]]]; [discriminate Hin|].
           symmetry in Hin. apply backoff_inj in Hin. subst k.
           now exists e.
        -- now apply (IH (S a)).
      * destruct (scrape_loop_other_exception a (seq (S a) n) e T R) as [t [E S0]].
        rewrite E in Hin. cbn [snd] in Hin. apply sleep_in_schedule in Hin.
        rewrite S0 in Hin. destruct Hin as [Hin|[]]. discriminate Hin.
Qed.
End ScrapeLoop.

Lemma scrape_page_not_skipped net url verbose timeout_seconds retries :
  skipped url = false ->
  scrape_page net url verbose timeout_seconds retries =
  scrape_attempts net url verbose timeout_seconds retries (range retries).
Proof.
  unfold skipped, scrape_page. intros H.
  destruct (List.find _ DOMAINS_TO_SKIP) as [d|] eqn:F; [|reflexivity].
  apply find_some in F as [Hin Hd].
  assert (X : existsb (fun domain => PyStr.contains domain url)
                      DOMAINS_TO_SKIP = true).
  { apply existsb_exists. now exists d. }
  congruence.
Qed.

Lemma range_split (retries : Z) (k : nat) :
  (Z.of_nat k < retries)%Z ->
  range retries = seq 0 k ++ k :: seq (S k) (Z.to_nat retries - S k).
Proof.
  intros H. unfold range.
  replace (Z.to_nat retries) with (k + S (Z.to_nat retries - S k)) at 1 by lia.
  rewrite seq_app. reflexivity.
Qed.

(** When every attempt ends in a request exception, whatever its kind,
    [scrape_page] makes one request per attempt, sleeps [2 ^ attempt]
    after every one of them, the last included, and returns [None]. *)
Lemma scrape_page_all_request_exceptions
  net url verbose timeout_seconds retries :
  skipped url = false ->
  (forall k, k < Z.to_nat retries ->
     exists e, try_result net url k = Raise e /\
               is_request_exception e = true) ->
  let r := scrape_page net url verbose timeout_seconds retries in
  fst r = None /\
  schedule (snd r) = flat_map (retry_round url timeout_seconds) (range retries).
Proof.
  intros Hs H. cbv zeta. rewrite scrape_page_not_skipped by assumption.
  unfold range.
  destruct (scrape_loop_request_prefix net url verbose timeout_seconds retries
              (Z.to_nat retries) 0 []) as [t0 [E S0]].
  { intros k Hk. apply H. lia. }
  rewrite app_nil_r in E. rewrite E.
  destruct (scrape_loop_exhausted net url verbose timeout_seconds retries) as [V S1].
  cbn [fst snd]. rewrite schedule_app, S0, S1, app_nil_r.
  split; [exact V | reflexivity].
Qed.

End Scrape.

(** ** The retry policy of the two fetch loops *)

Module Retry.
Import Trace.

Lemma terminal_is_request_failure (o : get_outcome) :
  terminal_failure o = true -> request_failure o = true.
Proof.
  unfold terminal_failure, request_failure.
  destruct (checked o) as [|e]; [discriminate|]. now destruct e.
Qed.

Lemma request_failure_try_result net url k :
  request_failure (net url k) = true ->
  exists e, try_result net url k = Raise e /\ is_request_exception e = true.
Proof.
  unfold request_failure, try_result.
  destruct (checked (net url k)) as [|e]; [discriminate|].
  intros H. now exists e.
Qed.

(** C1, at retries = 3 with HTTP 503 on every attempt.  Both loops make
    three requests and then return their failure value, but each request is
    followed by a sleep, the third included: four seconds pass between the
    last request and the return, with no attempt after them. *)
Theorem backoff_follows_last_attempt :
  let search :=
    fetch_search_results (always (Responds 503 empty_page))
                         "rocq" "google" 10 3 in
  let page :=
    scrape_page (always (Responds 503 empty_page))
                "https://example.org/" true 10 3 in
  fst search = Ok [] /\
  attempts_made (snd search) = 3 /\
  sleeps (snd search) = [1; 2; 4]%Z /\
  schedule (snd search) =
    [EvGet "https://www.google.com/search?q=rocq" 10; EvSleep 1;
     EvGet "https://www.google.com/search?q=rocq" 10; EvSleep 2;
     EvGet "https://www.google.com/search?q=rocq" 10; EvSleep 4] /\
  prints (snd search) =
    [MsgServerError 503 1; MsgServerError 503 2; MsgServerError 503 3;
     MsgFetchFailed 3] /\
  fst page = None /\
  attempts_made (snd page) = 3 /\
  sleeps (snd page) = [1; 2; 4]%Z /\
  schedule (snd page) =
    [EvGet "https://example.org/" 10; EvSleep 1;
     EvGet "https://example.org/" 10; EvSleep 2;
     EvGet "https://example.org/" 10; EvSleep 4].
Proof. vm_compute. repeat split. Qed.

(** C2 as stated fails for [scrape_page]: a 404 on the first attempt does
    not end the fetch after one request. *)
Lemma scrape_page_retries_terminal_failure :
  ~ (forall net url verbose timeout_seconds retries,
       skipped url = false ->
       (0 < retries)%Z ->
       terminal_failure (net url 0) = true ->
       schedule (snd (scrape_page net url verbose timeout_seconds retries)) =
       [EvGet url timeout_seconds]).
Proof.
  intros H.
  specialize (H (always (Responds 404 empty_page)) "https://example.org/"
                false 10%Z 3%Z eq_refl eq_refl eq_refl).
  vm_compute in H. discriminate H.
Qed.

(** C2, amended.  In [fetch_search_results] a terminal failure ends the
    fetch on the attempt where it occurs: after the rounds of the transient
    failures before it there is one more request, no sleep and the empty
    list.  In [scrape_page] every request exception, the terminal ones
    included, is followed by its backoff and the next attempt. *)
Theorem terminal_failure_policy :
  (forall net query search_engine timeout_seconds retries (k : nat),
      (Z.of_nat k < retries)%Z ->
      (forall j, j < k ->
         transient_failure (net (search_url search_engine query) j) = true) ->
      terminal_failure (net (search_url search_engine query) k) = true ->
      let r := fetch_search_results net query search_engine
                                    timeout_seconds retries in
      fst r = Ok [] /\
      schedule (snd r) =
        flat_map (retry_round (search_url search_engine query) timeout_seconds)
                 (seq 0 k)
        ++ [EvGet (search_url search_engine query) timeout_seconds]) /\
  (forall net url verbose timeout_seconds retries,
      skipped url = false ->
      (forall k, k < Z.to_nat retries ->
         terminal_failure (net url k) = true \/
         transient_failure (net url k) = true) ->
      let r := scrape_page net url verbose timeout_seconds retries in
      fst r = None /\
      schedule (snd r) =
        flat_map (retry_round url timeout_seconds) (range retries)).
Proof.
  split.
  - intros net query search_engine timeout_seconds retries k Hk Hpre Hterm.
    destruct (Fetch.fetch_loop_terminal net (fst (engine_of search_engine))
                (search_url search_engine query)
                (engine_selectors (snd (engine_of search_engine)))
                timeout_seconds retries k Hterm) as [m' [Hend _]].
    destruct (Fetch.fetch_search_results_ends net query search_engine
                timeout_seconds retries k (Ok []) m' Hk Hpre Hend)
      as [V [S0 _]].
    split; assumption.
  - intros net url verbose timeout_seconds retries Hs H.
    apply Scrape.scrape_page_all_request_exceptions; [assumption|].
    intros k Hk. apply request_failure_try_result.
    destruct (H k Hk) as [T|T].
    + now apply terminal_is_request_failure.
    + unfold transient_failure in T. unfold request_failure.
      destruct (checked (net url k)) as [|e]; [discriminate|]. now destruct e.
Qed.

Lemma terminal_failure_policy_witness :
  (let r := fetch_search_results
              (first_then 1 (Responds 503 empty_page) (Responds 404 empty_page))
              "rocq" "bing" 10 3 in
   fst r = Ok [] /\
   schedule (snd r) =
     flat_map (retry_round (search_url "bing" "rocq") 10) (seq 0 1)
     ++ [EvGet (search_url "bing" "rocq") 10]) /\
  (let r := scrape_page (always (Responds 404 empty_page))
                        "https://example.org/" false 10 2 in
   fst r = None /\
   schedule (snd r) =
     flat_map (retry_round "https://example.org/" 10) (range 2)).
Proof.
  split.
  - apply (proj1 terminal_failure_policy
             (first_then 1 (Responds 503 empty_page) (Responds 404 empty_page))
             "rocq" "bing" 10%Z 3%Z 1).
    + reflexivity.
    + intros [|j] Hj; [reflexivity | exfalso; lia].
    + reflexivity.
  - apply (proj2 terminal_failure_policy).
    + reflexivity.
    + intros k _. left. reflexivity.
Defined.

(** C10.  When the attempts before attempt [k] of [scrape_page] end in
    request exceptions and attempt [k] raises an exception that is not a
    request exception, the function returns [None] right after the request
    of attempt [k]: no sleep follows it and no further request is made.
    And in every run a backoff for attempt [k] is slept only when that
    attempt raised a request exception. *)
Theorem scrape_page_unexpected_exception :
  (forall net url verbose timeout_seconds retries (k : nat) (e : exn),
      skipped url = false ->
      (Z.of_nat k < retries)%Z ->
      (forall j, j < k -> request_failure (net url j) = true) ->
      try_result net url k = Raise e ->
      is_request_exception e = false ->
      let r := scrape_page net url verbose timeout_seconds retries in
      fst r = None /\
      schedule (snd r) =
        flat_map (retry_round url timeout_seconds) (seq 0 k)
        ++ [EvGet url timeout_seconds]) /\
  (forall net url verbose timeout_seconds retries (k : nat),
      In (EvSleep (2 ^ Z.of_nat k))
         (snd (scrape_page net url verbose timeout_seconds retries)) ->
      exists e, try_result net url k = Raise e /\
                is_request_exception e = true).
Proof.
  split.
  - intros net url verbose timeout_seconds retries k e Hs Hk Hpre Ht He.
    cbv zeta. rewrite Scrape.scrape_page_not_skipped by assumption.
    rewrite (Scrape.range_split retries k Hk).
    destruct (Scrape.scrape_loop_request_prefix net url verbose timeout_seconds
                retries k 0 (k :: seq (S k) (Z.to_nat retries - S k)))
      as [t0 [E0 S0]].
    { intros j Hj. apply request_failure_try_result, Hpre. lia. }
    destruct (Scrape.scrape_loop_other_exception net url verbose timeout_seconds
                retries k (seq (S k) (Z.to_nat retries - S k)) e Ht He)
      as [t [E S1]].
    rewrite E0, E. cbn [fst snd]. split; [reflexivity|].
    now rewrite schedule_app, S0, S1.
  - intros net url verbose timeout_seconds retries k Hin.
    destruct (skipped url) eqn:Hs.
    + exfalso. unfold skipped in Hs. unfold scrape_page in Hin.
      destruct (List.find _ DOMAINS_TO_SKIP) as [d|] eqn:F.
      * destruct verbose; simpl in Hin; intuition discriminate.
      * apply existsb_exists in Hs as [d [Hd Hc]].
        apply (find_none _ _ F) in Hd. simpl in Hd. congruence.
    + rewrite Scrape.scrape_page_not_skipped in Hin by assumption.
      now apply (Scrape.scrape_loop_sleep_cause net url verbose timeout_seconds
                   retries (Z.to_nat retries) 0 k).
Qed.

Lemma scrape_page_unexpected_exception_witness :
  (let r := scrape_page
              (first_then 1 (Fails Timeout) (Responds 200 page_without_content))
              "https://example.org/" true 10 3 in
   fst r = None /\
   schedule (snd r) =
     flat_map (retry_round "https://example.org/" 10) (seq 0 1)
     ++ [EvGet "https://example.org/" 10]) /\
  (exists e,
     try_result (first_then 1 (Fails Timeout) (Responds 200 page_without_content))
                "https://example.org/" 0 = Raise e /\
     is_request_exception e = true).
Proof.
  split.
  - apply (proj1 scrape_page_unexpected_exception
             (first_then 1 (Fails Timeout) (Responds 200 page_without_content))
             "https://example.org/" true 10%Z 3%Z 1 (KeyError "content")).
    + reflexivity.
    + reflexivity.
    + intros [|j] Hj; [reflexivity | exfalso; lia].
    + reflexivity.
    + reflexivity.
  - apply (proj2 scrape_page_unexpected_exception
             (first_then 1 (Fails Timeout) (Responds 200 page_without_content))
             "https://example.org/" true 10%Z 3%Z 0).
    vm_compute. right. right. right. left. reflexivity.
Defined.

End Retry.

(** ** fetch_search_results: what the caller receives *)

Module SearchOutcome.

(** C6 as stated fails: a search page without any result container and a
    search answered with HTTP 404 give [fetch_search_results] the same
    return value. *)
Lemma no_results_returned_like_failure :
  ~ (fst (fetch_search_results (always (Responds 200 empty_page))
                               "rocq" "google" 10 3)
     <> fst (fetch_search_results (always (Responds 404 empty_page))
                                  "rocq" "google" 10 3)).
Proof. intros H. apply H. reflexivity. Qed.

(** C6, amended.  A search page on which the container selector matches
    nothing, a terminal failure and exhausted retries all make
    [fetch_search_results] return the empty list; what tells them apart is
    the last message printed. *)
Theorem empty_results_and_failures_return_alike :
  forall net query search_engine timeout_seconds retries,
    let u := search_url search_engine query in
    let sels := engine_selectors (snd (engine_of search_engine)) in
    let r := fetch_search_results net query search_engine
                                  timeout_seconds retries in
    (forall (k : nat) soup,
        (Z.of_nat k < retries)%Z ->
        (forall j, j < k -> transient_failure (net u j) = true) ->
        checked (net u k) = Ok soup ->
        Soup.select (sel_result_link_container sels) ([], soup) = [] ->
        fst r = Ok [] /\
        exists t,
          snd r = t ++ [EvPrint (MsgNoResults (fst (engine_of search_engine)))]) /\
    (forall (k : nat),
        (Z.of_nat k < retries)%Z ->
        (forall j, j < k -> transient_failure (net u j) = true) ->
        terminal_failure (net u k) = true ->
        fst r = Ok [] /\
        exists t m,
          snd r = t ++ [EvPrint m] /\
          (m = MsgRequestError \/ exists c, m = MsgHTTPError c)) /\
    ((forall k, k < Z.to_nat retries -> transient_failure (net u k) = true) ->
     fst r = Ok [] /\
     exists t, snd r = t ++ [EvPrint (MsgFetchFailed retries)]).
Proof.
  intros net query search_engine timeout_seconds retries u sels r.
  split; [|split].
  - intros k soup Hk Hpre Hc Hs.
    destruct (Fetch.fetch_search_results_ends net query search_engine
                timeout_seconds retries k (Ok [])
                (MsgNoResults (fst (engine_of search_engine))) Hk Hpre)
      as [V [_ T]].
    { intros rest. now apply Fetch.fetch_loop_no_results with (soup := soup). }
    split; assumption.
  - intros k Hk Hpre Hterm.
    destruct (Fetch.fetch_loop_terminal net (fst (engine_of search_engine)) u sels
                timeout_seconds retries k Hterm) as [m [Hend Hm]].
    destruct (Fetch.fetch_search_results_ends net query search_engine
                timeout_seconds retries k (Ok []) m Hk Hpre Hend)
      as [V [_ [t T]]].
    split; [assumption|]. now exists t, m.
  - intros H.
    destruct (Fetch.fetch_search_results_all_transient net query search_engine
                timeout_seconds retries H) as [V [_ T]].
    split; assumption.
Qed.

Lemma empty_results_and_failures_return_alike_witness :
  fst (fetch_search_results (always (Responds 200 empty_page))
                            "rocq" "duckduckgo" 10 3) = Ok [] /\
  fst (fetch_search_results (always (Fails RequestException))
                            "rocq" "duckduckgo" 10 3) = Ok [] /\
  fst (fetch_search_results (always (Fails Timeout))
                            "rocq" "duckduckgo" 10 3) = Ok [].
Proof.
  pose proof (empty_results_and_failures_return_alike
                (always (Responds 200 empty_page))
                "rocq" "duckduckgo" 10%Z 3%Z) as [A _].
  pose proof (empty_results_and_failures_return_alike
                (always (Fails RequestException))
                "rocq" "duckduckgo" 10%Z 3%Z) as [_ [B _]].
  pose proof (empty_results_and_failures_return_alike
                (always (Fails Timeout))
                "rocq" "duckduckgo" 10%Z 3%Z) as [_ [_ C]].
  split; [|split].
  - apply (A 0 empty_page).
    + reflexivity.
    + intros j Hj. exfalso. lia.
    + reflexivity.
    + reflexivity.
  - apply (B 0).
    + reflexivity.
    + intros j Hj. exfalso. lia.
    + reflexivity.
  - apply C. intros k _. reflexivity.
Defined.

End SearchOutcome.

(** ** fetch_search_results: the result list *)

Module ResultList.

Lemma truthy_nonempty (s : string) : PyStr.truthy s = true <-> s <> "".
Proof.
  destruct s; unfold PyStr.truthy; simpl; split; intros H.
  - discriminate H.
  - now elim H.
  - discriminate.
  - reflexivity.
Qed.

(** The loop appends, container by container, what each one contributes. *)
Lemma extract_results_contributions (sels : selectors)
  (result_links : list Soup.located) :
  extract_results sels result_links = flat_map (contribution sels) result_links.
Proof.
  unfold extract_results.
  assert (G : forall l acc,
             fold_left
               (fun results link_container =>
                  match extract_result sels link_container with
                  | Some r => results ++ [r]
                  | None => results
                  end) l acc
             = acc ++ flat_map (contribution sels) l).
  { induction l as [|c l IH]; intros acc; simpl.
    - now rewrite app_nil_r.
    - rewrite IH. unfold contribution.
      destruct (extract_result sels c); simpl.
      + now rewrite <- app_assoc.
      + reflexivity. }
  apply G.
Qed.

(** C3 as stated fails: a container with a usable link and no title
    element is not dropped. *)
Lemma container_without_title_is_kept :
  ~ (forall sels link_container,
       Soup.select_one (sel_title sels) link_container = None ->
       extract_result sels link_container = None).
Proof.
  intros H.
  specialize (H (engine_selectors google_config) container_without_title
                eq_refl).
  vm_compute in H. discriminate H.
Qed.

(** C3, amended.  A container contributes a record only if it has a link
    element with a non-empty [href] and its title element, if it has one,
    has non-empty text.  A container with such a link and no title element
    contributes a record titled ["No title found"]; a container whose title
    element has empty text contributes nothing.  The result list is made
    of these contributions, in the order of the containers. *)
Theorem result_needs_link_and_nonempty_title :
  (forall sels link_container r,
      extract_result sels link_container = Some r ->
      (exists l href,
          Soup.select_one (sel_link sels) link_container = Some l /\
          Soup.attr (snd l) "href" = Some href /\ href <> "" /\
          Dict.get r "url" = Some href) /\
      (forall t, Soup.select_one (sel_title sels) link_container = Some t ->
                 Soup.text (snd t) <> "")) /\
  (forall sels link_container l href,
      Soup.select_one (sel_link sels) link_container = Some l ->
      Soup.attr (snd l) "href" = Some href -> href <> "" ->
      Soup.select_one (sel_title sels) link_container = None ->
      exists snippet,
        extract_result sels link_container =
        Some [("url", href); ("title", "No title found"); ("snippet", snippet)]) /\
  (forall sels link_container t,
      Soup.select_one (sel_title sels) link_container = Some t ->
      Soup.text (snd t) = "" ->
      extract_result sels link_container = None) /\
  (forall sels result_links,
      extract_results sels result_links =
      flat_map (contribution sels) result_links).
Proof.
  split; [|split; [|split]].
  - intros sels c r. unfold extract_result.
    destruct (Soup.select_one (sel_link sels) c) as [l|] eqn:Hl;
      [|discriminate].
    destruct (Soup.attr (snd l) "href") as [href|] eqn:Ha; [|discriminate].
    destruct (PyStr.truthy href) eqn:Hh; [|discriminate].
    apply truthy_nonempty in Hh.
    destruct (Soup.select_one (sel_title sels) c) as [t|].
    + destruct (PyStr.truthy (Soup.text (snd t))) eqn:Ht; [|discriminate].
      simpl. intros E. injection E as <-. split.
      * exists l, href. auto.
      * intros t' E'. injection E' as <-. now apply truthy_nonempty.
    + simpl. intros E. injection E as <-. split.
      * exists l, href. auto.
      * discriminate.
  - intros sels c l href Hl Hh Hne Ht. unfold extract_result.
    rewrite Hl, Hh, Ht. apply truthy_nonempty in Hne. rewrite Hne.
    simpl. eexists. reflexivity.
  - intros sels c t Ht He. unfold extract_result. rewrite Ht, He.
    destruct (Soup.select_one (sel_link sels) c) as [l|]; [|reflexivity].
    destruct (Soup.attr (snd l) "href") as [href|]; [|reflexivity].
    now rewrite andb_false_r.
  - apply extract_results_contributions.
Qed.

Lemma result_needs_link_and_nonempty_title_witness :
  (exists snippet,
     extract_result (engine_selectors google_config) container_without_title =
     Some [("url", "/x"); ("title", "No title found"); ("snippet", snippet)]) /\
  extract_result (engine_selectors google_config)
    ([], Elem "div" [("class", "tF2Cxc")]
           [Elem "a" [("href", "/x")] []; Elem "h3" [] []]) = None.
Proof.
  destruct result_needs_link_and_nonempty_title as [_ [A [B _]]].
  split.
  - apply (A (engine_selectors google_config) container_without_title
             ([("div", [("class", "g tF2Cxc")]); ("[document]", [])],
              Elem "a" [("href", "/x")] [Text "Foo"]) "/x").
    + reflexivity.
    + reflexivity.
    + discriminate.
    + reflexivity.
  - apply (B (engine_selectors google_config) _
             ([("div", [("class", "tF2Cxc")])], Elem "h3" [] [])).
    + reflexivity.
    + reflexivity.
Defined.

End ResultList.

(** ** Dictionaries *)

Module DictFacts.
Import Dict.

Lemma mem_keys (d : dict) (k : string) : mem k d = true <-> In k (keys d).
Proof.
  unfold mem. induction d as [|[k' v'] d IH]; simpl.
  - split; [discriminate | intros []].
  - destruct (String.eqb_spec k' k) as [->|N].
    + split; auto.
    + rewrite IH. split; [auto | intros [E|H]; [now elim N | exact H]].
Qed.

Lemma mem_false_keys (d : dict) (k : string) :
  mem k d = false <-> ~ In k (keys d).
Proof.
  rewrite <- mem_keys. destruct (mem k d); split; congruence.
Qed.

Lemma get_set_same (d : dict) (k v : string) : get (set d k v) k = Some v.
Proof.
  induction d as [|[k' v'] d IH]; simpl.
  - now rewrite String.eqb_refl.
  - destruct (String.eqb_spec k' k) as [->|N]; simpl.
    + now rewrite String.eqb_refl.
    + destruct (String.eqb_spec k' k); [contradiction | exact IH].
Qed.

Lemma get_set_other (d : dict) (k v k' : string) :
  k' <> k -> get (set d k v) k' = get d k'.
Proof.
  intros N. induction d as [|[k0 v0] d IH]; simpl.
  - destruct (String.eqb_spec k k'); [now elim N | reflexivity].
  - destruct (String.eqb_spec k0 k) as [->|N0]; simpl.
    + destruct (String.eqb_spec k k'); [now elim N | reflexivity].
    + destruct (String.eqb_spec k0 k'); [reflexivity | exact IH].
Qed.

Lemma keys_set_old (d : dict) (k v : string) :
  mem k d = true -> keys (set d k v) = keys d.
Proof.
  unfold mem. induction d as [|[k' v'] d IH]; simpl; [discriminate|].
  destruct (String.eqb_spec k' k) as [->|N]; simpl; intros H.
  - reflexivity.
  - now rewrite IH.
Qed.

Lemma keys_set_new (d : dict) (k v : string) :
  mem k d = false -> keys (set d k v) = keys d ++ [k].
Proof.
  unfold mem. induction d as [|[k' v'] d IH]; simpl; intros H.
  - reflexivity.
  - destruct (String.eqb_spec k' k) as [->|N]; [discriminate|].
    simpl. now rewrite IH.
Qed.


Lemma NoDup_keys_set (d : dict) (k v : string) :
  NoDup (keys d) -> NoDup (keys (set d k v)).
Proof.
  intros H. destruct (mem k d) eqn:M.
  - now rewrite keys_set_old.
  - rewrite keys_set_new by assumption.
    apply NoDup_app; [assumption | repeat constructor; intros [] |].
    intros x Hx [<-|[]]. now apply mem_false_keys in M.
Qed.

End DictFacts.

(** ** process_scraped_data *)

Module Projection.
Import Dict DictFacts.

Section Item.
Variable item : dict.

Local Abbreviation keep := (keep_field item).
Local Abbreviation fill := fill_field.

Lemma keep_get (fields : list string) :
  forall (acc : dict) (k : string),
    get (fold_left keep fields acc) k =
    if existsb (String.eqb k) fields
    then match get item k with Some v => Some v | None => get acc k end
    else get acc k.
Proof.
  induction fields as [|f fs IH]; intros acc k; simpl; [reflexivity|].
  rewrite IH.
  assert (A : get (keep acc f) k =
              if String.eqb k f
              then match get item k with Some v => Some v | None => get acc k end
              else get acc k).
  { unfold keep_field. destruct (String.eqb_spec k f) as [->|N].
    - destruct (get item f); [apply get_set_same | reflexivity].
    - destruct (get item f); [now apply get_set_other | reflexivity]. }
  rewrite A.
  destruct (String.eqb k f), (existsb (String.eqb k) fs), (get item k);
    reflexivity.
Qed.


Lemma fill_get (fields : list string) :
  forall (d : dict) (k : string),
    get (fold_left fill fields d) k =
    match get d k with
    | Some v => Some v
    | None => if existsb (String.eqb k) fields
              then Some "Field not found" else None
    end.
Proof.
  induction fields as [|f fs IH]; intros d k.
  - simpl. now destruct (get d k).
  - change (fold_left fill (f :: fs) d) with (fold_left fill fs (fill d f)).
    rewrite IH.
    assert (A : get (fill d f) k =
                match get d k with
                | Some v => Some v
                | None => if String.eqb k f then Some "Field not found"
                          else None
                end).
    { unfold fill_field, mem. destruct (String.eqb_spec k f) as [->|N].
      - destruct (get d f) as [v|] eqn:G; [now rewrite G|].
        apply get_set_same.
      - destruct (get d f) as [v|].
        + now destruct (get d k).
        + rewrite get_set_other by assumption. now destruct (get d k). }
    rewrite A. simpl.
    destruct (get d k), (String.eqb k f), (existsb (String.eqb k) fs);
      reflexivity.
Qed.


Lemma fill_NoDup (fields : list string) :
  forall d : dict, NoDup (keys d) -> NoDup (keys (fold_left fill fields d)).
Proof.
  induction fields as [|f fs IH]; intros d ND; simpl; [assumption|].
  apply IH. unfold fill_field. destruct (mem f d); [assumption|].
  now apply NoDup_keys_set.
Qed.

Lemma keep_NoDup (fields : list string) :
  forall acc : dict, NoDup (keys acc) -> NoDup (keys (fold_left keep fields acc)).
Proof.
  induction fields as [|f fs IH]; intros acc ND; simpl; [assumption|].
  apply IH. unfold keep_field. destruct (get item f); [|assumption].
  now apply NoDup_keys_set.
Qed.

Lemma in_existsb (k : string) (fields : list string) :
  existsb (String.eqb k) fields = true <-> In k fields.
Proof.
  rewrite existsb_exists. split.
  - intros [x [Hx E]]. apply String.eqb_eq in E. now subst.
  - intros H. exists k. split; [assumption | apply String.eqb_refl].
Qed.

(** The value of every key of the projected record. *)
Lemma process_item_get (fields : list string) (k : string) :
  get (process_item item fields) k =
  if existsb (String.eqb k) fields
  then Some match get item k with Some v => v | None => "Field not found" end
  else None.
Proof.
  unfold process_item, fill_missing, filtered_item.
  change (get (fold_left fill fields (fold_left keep fields [])) k = 
          if existsb (String.eqb k) fields
          then Some match get item k with
                    | Some v => v | None => "Field not found" end
          else None).
  rewrite fill_get, keep_get. simpl.
  destruct (existsb (String.eqb k) fields); [|reflexivity].
  now destruct (get item k).
Qed.

Lemma process_item_NoDup (fields : list string) :
  NoDup (keys (process_item item fields)).
Proof.
  unfold process_item, fill_missing, filtered_item.
  apply fill_NoDup, keep_NoDup. constructor.
Qed.

Lemma process_item_key_set (fields : list string) (k : string) :
  In k (keys (process_item item fields)) <-> In k fields.
Proof.
  rewrite <- mem_keys, <- in_existsb. unfold mem.
  rewrite process_item_get. now destruct (existsb (String.eqb k) fields).
Qed.

End Item.

Lemma process_scraped_data_map (scraped_data : list dict) (fields : list string) :
  process_scraped_data scraped_data fields =
  map (fun item => process_item item fields) (filter has_url scraped_data).
Proof.
  unfold process_scraped_data.
  assert (G : forall l acc,
             fold_left
               (fun processed_data item =>
                  if has_url item
                  then processed_data ++ [process_item item fields]
                  else processed_data) l acc
             = acc ++ map (fun item => process_item item fields)
                          (filter has_url l)).
  { induction l as [|item l IH]; intros acc; simpl.
    - now rewrite app_nil_r.
    - rewrite IH. destruct (has_url item); simpl.
      + now rewrite <- app_assoc.
      + reflexivity. }
  apply G.
Qed.

Lemma has_url_true (item : dict) :
  has_url item = true <-> exists v, get item "url" = Some v /\ v <> "".
Proof.
  unfold has_url. destruct (get item "url") as [v|].
  - rewrite ResultList.truthy_nonempty. split.
    + intros H. now exists v.
    + intros [v' [E H]]. now injection E as ->.
  - split; [discriminate | intros [v [E _]]; discriminate].
Qed.




(** C5.  A record with a non-empty [url] is projected to exactly one output
    record; its keys are the requested fields, each once; every requested
    field holds the record's value when the record has the field and
    ["Field not found"] otherwise.  A record whose [url] is missing or
    empty gives nothing.  The output follows the input order. *)
Theorem projection_law :
  (forall (R : dict) (F : list string) (v : string),
      get R "url" = Some v -> v <> "" ->
      exists out,
        process_scraped_data [R] F = [out] /\
        (forall k, In k (keys out) <-> In k F) /\
        NoDup (keys out) /\
        (forall k, In k F ->
           get out k = Some match get R k with
                            | Some x => x
                            | None => "Field not found"
                            end)) /\
  (forall (R : dict) (F : list string),
      get R "url" = None \/ get R "url" = Some "" ->
      process_scraped_data [R] F = []) /\
  (forall (l1 l2 : list dict) (F : list string),
      process_scraped_data (l1 ++ l2) F =
      process_scraped_data l1 F ++ process_scraped_data l2 F).
Proof.
  split; [|split].
  - intros R F v Hv Hne.
    assert (U : has_url R = true) by (apply has_url_true; now exists v).
    exists (process_item R F). repeat split.
    + unfold process_scraped_data. simpl. now rewrite U.
    + now apply process_item_key_set.
    + now apply process_item_key_set.
    + apply process_item_NoDup.
    + intros k Hk. rewrite process_item_get.
      apply in_existsb in Hk. now rewrite Hk.
  - intros R F H. unfold process_scraped_data, has_url. simpl.
    now destruct H as [-> | ->].
  - intros l1 l2 F. rewrite !process_scraped_data_map.
    now rewrite filter_app, map_app.
Qed.

Lemma projection_law_witness :
  (exists out,
     process_scraped_data
       [[("title", "T"); ("url", "https://example.org/")]]
       ["url"; "snippet"; "title"] = [out] /\
     (forall k, In k (keys out) <-> In k ["url"; "snippet"; "title"]) /\
     NoDup (keys out) /\
     (forall k, In k ["url"; "snippet"; "title"] ->
        get out k =
        Some match get [("title", "T"); ("url", "https://example.org/")] k with
             | Some x => x
             | None => "Field not found"
             end)) /\
  process_scraped_data [[("title", "T"); ("url", "")]] ["url"; "title"] = [].
Proof.
  split.
  - apply (proj1 projection_law
             [("title", "T"); ("url", "https://example.org/")]
             ["url"; "snippet"; "title"] "https://example.org/").
    + reflexivity.
    + discriminate.
  - apply (proj1 (proj2 projection_law)). right. reflexivity.
Defined.

End Projection.

(** ** scrape_page: the skip list *)

Module Skip.
Import Trace.

Lemma starts_with_app (d post : string) :
  PyStr.starts_with d (d ++ post) = true.
Proof.
  induction d as [|c d IH]; simpl; [reflexivity|].
  now rewrite Ascii.eqb_refl.
Qed.

Lemma contains_prefix (d s : string) :
  PyStr.starts_with d s = true -> PyStr.contains d s = true.
Proof. intros H. destruct s; simpl; now rewrite H. Qed.

Lemma contains_app (d pre post : string) :
  PyStr.contains d (pre ++ d ++ post) = true.
Proof.
  induction pre as [|c pre IH]; simpl.
  - apply contains_prefix, starts_with_app.
  - rewrite IH. apply orb_true_r.
Qed.

Lemma skipped_occurrence (domain pre post : string) :
  In domain DOMAINS_TO_SKIP -> skipped (pre ++ domain ++ post) = true.
Proof.
  intros H. unfold skipped. apply existsb_exists.
  exists domain. split; [assumption | apply contains_app].
Qed.

(** A URL that fails the skip test costs no request and no sleep. *)
Lemma scrape_page_skipped net url verbose timeout_seconds retries :
  skipped url = true ->
  fst (scrape_page net url verbose timeout_seconds retries) = None /\
  schedule (snd (scrape_page net url verbose timeout_seconds retries)) = [].
Proof.
  unfold skipped, scrape_page. intros H.
  destruct (List.find _ DOMAINS_TO_SKIP) as [d|] eqn:F.
  - now destruct verbose.
  - apply existsb_exists in H as [d [Hd Hc]].
    apply (find_none _ _ F) in Hd. simpl in Hd. congruence.
Qed.

Lemma try_result_url net url attempt page :
  try_result net url attempt = Ok page -> Dict.get page "url" = Some url.
Proof.
  unfold try_result, extract_page.
  destruct (checked (net url attempt)) as [soup|e]; [|discriminate].
  destruct (page_description soup); [|discriminate].
  intros E. injection E as <-. reflexivity.
Qed.

Lemma scrape_loop_some net url verbose timeout_seconds retries (l : list nat) page :
  fst (scrape_attempts net url verbose timeout_seconds retries l) = Some page ->
  exists attempt, try_result net url attempt = Ok page.
Proof.
  induction l as [|a l IH]; intros H.
  - rewrite (proj1 (Scrape.scrape_loop_exhausted net url verbose timeout_seconds
                      retries)) in H. discriminate H.
  - destruct (try_result net url a) as [p|e] eqn:T.
    + destruct (Scrape.scrape_loop_page net url verbose timeout_seconds retries
                  a l p T) as [t [E _]].
      rewrite E in H. injection H as ->. now exists a.
    + destruct (is_request_exception e) eqn:R.
      * destruct (Scrape.scrape_loop_request_exception net url verbose timeout_seconds
                    retries a l e T R) as [t [E _]].
        rewrite E in H. now apply IH.
      * destruct (Scrape.scrape_loop_other_exception net url verbose timeout_seconds
                    retries a l e T R) as [t [E _]].
        rewrite E in H. discriminate H.
Qed.

Lemma scrape_page_some net url verbose timeout_seconds retries page :
  fst (scrape_page net url verbose timeout_seconds retries) = Some page ->
  skipped url = false /\ Dict.get page "url" = Some url.
Proof.
  intros H. destruct (skipped url) eqn:S.
  - destruct (scrape_page_skipped net url verbose timeout_seconds retries S)
      as [N _]. congruence.
  - split; [reflexivity|].
    rewrite Scrape.scrape_page_not_skipped in H by assumption.
    apply scrape_loop_some in H as [a Ha]. now apply try_result_url in Ha.
Qed.

Lemma collect_scraped_in (outcomes : list (option Dict.dict)) page :
  In page (collect_scraped outcomes) -> In (Some page) outcomes.
Proof.
  unfold collect_scraped.
  assert (G : forall l acc,
             In page
               (fold_left
                  (fun scraped_data scraped_result =>
                     match scraped_result with
                     | Some p => if Dict.to_bool p then scraped_data ++ [p]
                                 else scraped_data
                     | None => scraped_data
                     end) l acc) ->
             In page acc \/ In (Some page) l).
  { induction l as [|o l IH]; intros acc H; simpl in *; [now left|].
    apply IH in H as [H|H]; [|now right; right].
    destruct o as [p|]; [|now left].
    destruct (Dict.to_bool p); [|now left].
    apply in_app_or in H as [H|[<-|[]]]; [now left | now right; left]. }
  intros H. apply G in H as [[]|H]. exact H.
Qed.

(** The first thing [scrape_page] does for a URL that is not caught by the
    skip test, when there is at least one attempt, is to request it. *)
Lemma scrape_page_requests net url verbose timeout_seconds retries :
  skipped url = false ->
  (0 < retries)%Z ->
  exists rest,
    schedule (snd (scrape_page net url verbose timeout_seconds retries)) =
    EvGet url timeout_seconds :: rest.
Proof.
  intros Hs Hr. rewrite Scrape.scrape_page_not_skipped by assumption.
  rewrite (Scrape.range_split retries 0) by exact Hr. cbn [seq app].
  destruct (try_result net url 0) as [page|e] eqn:T.
  - destruct (Scrape.scrape_loop_page net url verbose timeout_seconds retries
                0 (seq 1 (Z.to_nat retries - 1)) page T) as [t [E S0]].
    rewrite E. cbn [snd]. rewrite S0. eauto.
  - destruct (is_request_exception e) eqn:R.
    + destruct (Scrape.scrape_loop_request_exception net url verbose
                  timeout_seconds retries 0 (seq 1 (Z.to_nat retries - 1))
                  e T R) as [t [E S0]].
      rewrite E. cbn [snd]. rewrite schedule_app, S0. cbn [retry_round app].
      eauto.
    + destruct (Scrape.scrape_loop_other_exception net url verbose
                  timeout_seconds retries 0 (seq 1 (Z.to_nat retries - 1))
                  e T R) as [t [E S0]].
      rewrite E. cbn [snd]. rewrite S0. eauto.
Qed.

(** C7 as stated fails: the host of [https://TWITTER.com/rocq] is the
    listed domain twitter.com, written in capitals, and the page is
    requested and returned. *)
Lemma capital_host_is_scraped :
  ~ (forall net url verbose timeout_seconds retries domain,
       In domain DOMAINS_TO_SKIP ->
       PyStr.contains domain (lower_letters url) = true ->
       fst (scrape_page net url verbose timeout_seconds retries) = None /\
       attempts_made (snd (scrape_page net url verbose timeout_seconds retries))
       = 0).
Proof.
  intros H.
  destruct (H (always (Responds 200 hello_page)) "https://TWITTER.com/rocq"
              false 10%Z 3%Z "twitter.com" (or_introl eq_refl) eq_refl)
    as [V _].
  vm_compute in V. discriminate V.
Qed.

(** C7, amended.  The skip test is [domain in url]: for a URL in which an
    entry of the skip list occurs as it is written, [scrape_page] makes no
    request (and sleeps for no time) and returns [None], and no record
    collected from the finished tasks carries such a URL; a URL in which
    no entry occurs as written is requested, whatever its host. *)
Theorem skipped_url_never_scraped :
  (forall net domain pre post verbose timeout_seconds retries,
      In domain DOMAINS_TO_SKIP ->
      let url := (pre ++ domain ++ post)%string in
      let r := scrape_page net url verbose timeout_seconds retries in
      fst r = None /\ schedule (snd r) = [] /\ attempts_made (snd r) = 0) /\
  (forall net verbose timeout_seconds retries completed domain pre post page,
      In domain DOMAINS_TO_SKIP ->
      In page (scrape_completed net verbose timeout_seconds retries completed) ->
      Dict.get page "url" <> Some (pre ++ domain ++ post)%string) /\
  (forall net url verbose timeout_seconds retries,
      (forall domain, In domain DOMAINS_TO_SKIP ->
                      PyStr.contains domain url = false) ->
      (0 < retries)%Z ->
      exists rest,
        schedule (snd (scrape_page net url verbose timeout_seconds retries)) =
        EvGet url timeout_seconds :: rest).
Proof.
  split; [|split].
  - intros net domain pre post verbose timeout_seconds retries Hd url r.
    destruct (scrape_page_skipped net url verbose timeout_seconds retries
                (skipped_occurrence domain pre post Hd)) as [V S0].
    repeat split; try assumption.
    unfold attempts_made. fold r in S0.
    assert (G : forall t, schedule t = [] -> filter is_get t = []).
    { induction t as [|e t IH]; [reflexivity|]. simpl.
      destruct e; simpl; try discriminate. exact IH. }
    now rewrite G.
  - intros net verbose timeout_seconds retries completed domain pre post page
           Hd Hin Hurl.
    unfold scrape_completed in Hin. apply collect_scraped_in in Hin.
    apply in_map_iff in Hin as [url [Hp _]].
    apply scrape_page_some in Hp as [Hs Hu].
    rewrite Hu in Hurl. injection Hurl as ->.
    rewrite (skipped_occurrence domain pre post Hd) in Hs. discriminate Hs.
  - intros net url verbose timeout_seconds retries Hno Hr.
    apply scrape_page_requests; [|assumption].
    unfold skipped. destruct (existsb _ DOMAINS_TO_SKIP) eqn:E; [|reflexivity].
    apply existsb_exists in E as [d [Hd Hc]].
    rewrite (Hno d Hd) in Hc. discriminate Hc.
Qed.

Lemma skipped_url_never_scraped_witness :
  (let r := scrape_page (always (Responds 200 hello_page))
                        "https://twitter.com/rocq" true 10 3 in
   fst r = None /\ schedule (snd r) = [] /\ attempts_made (snd r) = 0) /\
  (exists rest,
     schedule (snd (scrape_page (always (Responds 200 hello_page))
                                "https://TWITTER.com/rocq" true 10 3)) =
     EvGet "https://TWITTER.com/rocq" 10 :: rest).
Proof.
  split.
  - apply (proj1 skipped_url_never_scraped (always (Responds 200 hello_page))
             "twitter.com" "https://" "/rocq" true 10%Z 3%Z).
    left. reflexivity.
  - apply (proj2 (proj2 skipped_url_never_scraped)).
    + intros domain [<-|[]]. reflexivity.
    + reflexivity.
Defined.

End Skip.

(** ** scrape_page: the page content *)

Module PageContent.




Lemma filter_none {A} (f : A -> bool) (l : list A) :
  Forall (fun x => f x = false) l -> filter f l = [].
Proof.
  induction 1 as [|x l Hx _ IH]; [reflexivity|]. simpl. now rewrite Hx.
Qed.








End PageContent.

(** * Further properties *)

(** ** clean_text: what is kept *)

Module Words.
Import PyStr PyStrFacts.

Lemma split_cons_space (c : ascii) (s : string) :
  isspace c = true -> split (String c s) = split s.
Proof.
  intros H. unfold split. simpl. destruct (split_scan s) as [w ws].
  rewrite H. reflexivity.
Qed.

Lemma split_cons_char (c : ascii) (s : string) :
  isspace c = false -> split (String c s) <> [].
Proof.
  intros H. unfold split. simpl. destruct (split_scan s) as [w ws].
  rewrite H. discriminate.
Qed.

Lemma split_nil_iff (s : string) :
  split s = [] <-> PyRe.all_chars isspace s = true.
Proof.
  induction s as [|c s IH]; simpl.
  - split; reflexivity.
  - destruct (isspace c) eqn:Hc; simpl.
    + now rewrite split_cons_space.
    + split; [|discriminate].
      intros H. now apply split_cons_char in H.
Qed.

(** X1.  [clean_text] keeps the words of its argument, in order: splitting
    the cleaned text gives the same words as splitting the text. *)
Theorem clean_text_keeps_words (s : string) :
  split (clean_text (PyStr s)) = split s.
Proof.
  change (clean_text (PyStr s)) with (clean_str s).
  rewrite CleanText.clean_str_join. apply split_join, split_words.
Qed.

(** X2.  [clean_text] returns the empty string exactly for the texts made
    of whitespace only (the empty text included). *)
Theorem clean_text_empty_iff (s : string) :
  clean_text (PyStr s) = "" <-> PyRe.all_chars isspace s = true.
Proof.
  change (clean_text (PyStr s)) with (clean_str s).
  rewrite CleanText.clean_str_join, <- split_nil_iff.
  destruct (join_words_tidy (split s) (split_words s)) as [_ Hne].
  split.
  - intros E. destruct (split s) as [|w ws] eqn:S; [reflexivity|].
    rewrite E in Hne. discriminate Hne. discriminate.
  - intros ->. reflexivity.
Qed.

Lemma clean_text_empty_iff_witness :
  clean_text (PyStr "  	
 ") = "".
Proof. apply (proj2 (clean_text_empty_iff _)). reflexivity. Defined.

End Words.

(** ** fetch_search_results: success, fallback, bounds *)

Module SearchMore.
Import Trace.

Lemma attempts_made_schedule (t : list event) :
  attempts_made (schedule t) = attempts_made t.
Proof.
  unfold attempts_made, schedule.
  induction t as [|e t IH]; [reflexivity|].
  destruct e; simpl; auto.
Qed.

Lemma sleeps_schedule (t : list event) : sleeps (schedule t) = sleeps t.
Proof.
  unfold schedule. induction t as [|e t IH]; [reflexivity|].
  destruct e; simpl; auto. now rewrite IH.
Qed.

Lemma total_sleep_schedule (t : list event) :
  total_sleep (schedule t) = total_sleep t.
Proof. unfold total_sleep. now rewrite sleeps_schedule. Qed.

Lemma attempts_made_rounds url tmo (l : list nat) :
  attempts_made (flat_map (retry_round url tmo) l) = List.length l.
Proof.
  unfold attempts_made. induction l as [|a l IH]; [reflexivity|].
  simpl. now rewrite IH.
Qed.

(** A run of [k] transient failures followed by an attempt at which the
    loop returns [v] with the trace [tend], whatever comes after. *)
Lemma fetch_search_results_stops
  net query search_engine timeout_seconds retries (k : nat) v tend :
  (Z.of_nat k < retries)%Z ->
  (forall j, j < k ->
     transient_failure (net (search_url search_engine query) j) = true) ->
  (forall rest,
     fetch_attempts net (fst (engine_of search_engine))
       (search_url search_engine query)
       (engine_selectors (snd (engine_of search_engine)))
       timeout_seconds retries (k :: rest) = (v, tend)) ->
  let r := fetch_search_results net query search_engine timeout_seconds retries in
  fst r = v /\
  schedule (snd r) =
    flat_map (retry_round (search_url search_engine query) timeout_seconds)
             (seq 0 k)
    ++ schedule tend.
Proof.
  intros Hk Hpre Hend.
  destruct (Fetch.fetch_search_results_loop net query search_engine
              timeout_seconds retries) as [notice [Hn E]].
  cbv zeta in *. rewrite E.
  rewrite (Scrape.range_split retries k Hk).
  destruct (Fetch.fetch_loop_transient_prefix net (fst (engine_of search_engine))
              (search_url search_engine query)
              (engine_selectors (snd (engine_of search_engine)))
              timeout_seconds retries k 0
              (k :: seq (S k) (Z.to_nat retries - S k)))
    as [t0 [E0 S0]].
  { intros j Hj. apply Hpre. lia. }
  rewrite E0, Hend. cbn [fst snd]. split; [reflexivity|].
  now rewrite !schedule_app, Hn, S0.
Qed.

(** X3.  When the first [k] attempts of a search fail transiently (HTTP
    500/503 or timeout) and attempt [k], still within the retries, brings a
    page with at least one result container, [fetch_search_results] returns
    the results extracted from that page, after [k] backoffs and [k + 1]
    requests, with no sleep after the successful one. *)
Theorem fetch_search_results_succeeds_after_retries :
  forall net query search_engine timeout_seconds retries (k : nat) soup c cs,
    let u := search_url search_engine query in
    let sels := engine_selectors (snd (engine_of search_engine)) in
    (Z.of_nat k < retries)%Z ->
    (forall j, j < k -> transient_failure (net u j) = true) ->
    checked (net u k) = Ok soup ->
    Soup.select (sel_result_link_container sels) ([], soup) = c :: cs ->
    let r := fetch_search_results net query search_engine
                                  timeout_seconds retries in
    fst r = Ok (extract_results sels (c :: cs)) /\
    schedule (snd r) =
      flat_map (retry_round u timeout_seconds) (seq 0 k)
      ++ [EvGet u timeout_seconds].
Proof.
  intros net query search_engine timeout_seconds retries k soup c cs u sels
         Hk Hpre Hc Hs.
  apply (fetch_search_results_stops net query search_engine timeout_seconds
           retries k (Ok (extract_results sels (c :: cs)))
           [EvGet u timeout_seconds] Hk Hpre).
  intros rest. rewrite Fetch.fetch_loop_cons. fold u. rewrite Hc.
  fold sels. now rewrite Hs.
Qed.

Lemma fetch_search_results_succeeds_after_retries_witness :
  let page :=
    Soup.soup
      [Elem "li" [("class", "b_algo")]
         [Elem "h2" [] [Elem "a" [("href", "https://rocq-prover.org/")]
                               [Text " The Rocq  Prover "]]]] in
  let r := fetch_search_results
             (first_then 2 (Responds 503 empty_page) (Responds 200 page))
             "rocq" "bing" 10 3 in
  fst r = Ok [[("url", "https://rocq-prover.org/");
               ("title", "The Rocq Prover");
               ("snippet", "No snippet found")]] /\
  schedule (snd r) =
    [EvGet "https://www.bing.com/search?q=rocq" 10; EvSleep 1;
     EvGet "https://www.bing.com/search?q=rocq" 10; EvSleep 2;
     EvGet "https://www.bing.com/search?q=rocq" 10].
Proof.
  cbv zeta.
  exact (fetch_search_results_succeeds_after_retries
           (first_then 2 (Responds 503 empty_page)
              (Responds 200
                 (Soup.soup
                    [Elem "li" [("class", "b_algo")]
                       [Elem "h2" []
                          [Elem "a" [("href", "https://rocq-prover.org/")]
                                [Text " The Rocq  Prover "]]]])))
           "rocq" "bing" 10%Z 3%Z 2 _
           ([("[document]", [])],
            Elem "li" [("class", "b_algo")]
              [Elem "h2" []
                 [Elem "a" [("href", "https://rocq-prover.org/")]
                       [Text " The Rocq  Prover "]]])
           [] eq_refl
           (fun j Hj =>
              match j as j0 return
                    j0 < 2 ->
                    transient_failure
                      (first_then 2 (Responds 503 empty_page) (Responds 200 _)
                         (search_url "bing" "rocq") j0) = true
              with
              | 0 => fun _ => eq_refl
              | 1 => fun _ => eq_refl
              | S (S j1) => fun H => ltac:(exfalso; lia)
              end Hj)
           eq_refl eq_refl).
Defined.

Lemma lookup_unknown_engine (search_engine : string) :
  search_engine <> "google" -> search_engine <> "bing" ->
  search_engine <> "duckduckgo" ->
  lookup_engine SEARCH_ENGINES search_engine = None.
Proof.
  intros G B D. unfold SEARCH_ENGINES. cbn [lookup_engine].
  replace (String.eqb "google" search_engine) with false
    by (symmetry; apply String.eqb_neq; congruence).
  replace (String.eqb "bing" search_engine) with false
    by (symmetry; apply String.eqb_neq; congruence).
  replace (String.eqb "duckduckgo" search_engine) with false
    by (symmetry; apply String.eqb_neq; congruence).
  reflexivity.
Qed.

(** X4.  For an engine name other than the three of [SEARCH_ENGINES],
    [fetch_search_results] does what it does for ["google"] — the same
    requests, sleeps, prints and return value — after one more print that
    names the unsupported engine. *)
Theorem unsupported_engine_falls_back_to_google :
  forall net query search_engine timeout_seconds retries,
    search_engine <> "google" -> search_engine <> "bing" ->
    search_engine <> "duckduckgo" ->
    let g := fetch_search_results net query "google" timeout_seconds retries in
    fetch_search_results net query search_engine timeout_seconds retries =
    (fst g, EvPrint (MsgUnsupportedEngine search_engine) :: snd g).
Proof.
  intros net query search_engine timeout_seconds retries G B D.
  pose proof (lookup_unknown_engine search_engine G B D) as L.
  unfold fetch_search_results, search_url, engine_of. rewrite L.
  cbn [lookup_engine SEARCH_ENGINES String.eqb Ascii.eqb Bool.eqb fst snd].
  unfold bind, emit, ret.
  change (engine_url google_config) with "https://www.google.com/search?q=".
  now destruct (fetch_attempts _ _ _ _ _ _ _).
Qed.

Lemma unsupported_engine_falls_back_to_google_witness :
  let g := fetch_search_results (always (Responds 404 empty_page))
                                "rocq" "google" 10 3 in
  fetch_search_results (always (Responds 404 empty_page))
                       "rocq" "yahoo" 10 3 =
  (fst g, EvPrint (MsgUnsupportedEngine "yahoo") :: snd g).
Proof.
  apply (unsupported_engine_falls_back_to_google
           (always (Responds 404 empty_page)) "rocq" "yahoo" 10%Z 3%Z);
    discriminate.
Defined.

End SearchMore.

(** ** Both loops: how much is requested and slept at most *)

Module Bounds.
Import Trace SearchMore.

Lemma attempts_made_app (t1 t2 : list event) :
  attempts_made (t1 ++ t2) = attempts_made t1 + attempts_made t2.
Proof. unfold attempts_made. now rewrite filter_app, length_app. Qed.

Lemma sleeps_app (t1 t2 : list event) : sleeps (t1 ++ t2) = sleeps t1 ++ sleeps t2.
Proof.
  induction t1 as [|e t1 IH]; [reflexivity|].
  destruct e; simpl; auto. now rewrite IH.
Qed.

Lemma total_sleep_app (t1 t2 : list event) :
  total_sleep (t1 ++ t2) = (total_sleep t1 + total_sleep t2)%Z.
Proof.
  unfold total_sleep. rewrite sleeps_app.
  induction (sleeps t1) as [|d l IH]; simpl; [reflexivity | lia].
Qed.

Lemma pow2_succ (a : nat) : (2 ^ Z.of_nat (S a) = 2 * 2 ^ Z.of_nat a)%Z.
Proof. rewrite Nat2Z.inj_succ. apply Z.pow_succ_r. lia. Qed.

Lemma pow2_mono (a b : nat) : a <= b -> (2 ^ Z.of_nat a <= 2 ^ Z.of_nat b)%Z.
Proof. intros H. apply Z.pow_le_mono_r; lia. Qed.

Lemma pow2_shift (a n : nat) :
  (2 ^ Z.of_nat (S a + n) = 2 ^ Z.of_nat (a + S n))%Z.
Proof. f_equal. lia. Qed.

Ltac count_events :=
  unfold attempts_made, total_sleep, retry_round in *; simpl; lia.

Section FetchBound.
Variable net : network.
Variables search_engine url : string.
Variable sels : selectors.
Variables timeout_seconds retries : Z.

Local Abbreviation loop :=
  (fetch_attempts net search_engine url sels timeout_seconds retries).

Lemma fetch_loop_bounds (n : nat) :
  forall a : nat,
    attempts_made (snd (loop (seq a n))) <= n /\
    (0 <= total_sleep (snd (loop (seq a n)))
     <= 2 ^ Z.of_nat (a + n) - 2 ^ Z.of_nat a)%Z.
Proof.
  induction n as [|n IH]; intros a.
  - simpl seq. rewrite Nat.add_0_r. count_events.
  - destruct (IH (S a)) as [IA IS].
    pose proof (pow2_succ a) as P2. pose proof (pow2_shift a n) as PS.
    pose proof (pow2_mono a (a + S n) ltac:(lia)) as PM.
    simpl seq. rewrite Fetch.fetch_loop_cons.
    destruct (checked (net url a)) as [soup|e].
    + destruct (Soup.select (sel_result_link_container sels) ([], soup));
        count_events.
    + destruct e.
      * destruct ((status_code =? 500) || (status_code =? 503))%Z.
        -- cbn [snd]. count_events.
        -- count_events.
      * cbn [snd]. count_events.
      * count_events.
      * count_events.
      * count_events.
Qed.
End FetchBound.

(** X5.  Whatever the network answers, [fetch_search_results] makes at most
    [retries] requests (none when [retries] is zero or negative) and sleeps
    at most [2 ^ retries - 1] seconds in total. *)
Theorem fetch_search_results_bounds :
  forall net query search_engine timeout_seconds retries,
    let r := fetch_search_results net query search_engine
                                  timeout_seconds retries in
    (Z.of_nat (attempts_made (snd r)) <= Z.max 0 retries)%Z /\
    (0 <= total_sleep (snd r) <= 2 ^ Z.max 0 retries - 1)%Z.
Proof.
  intros net query search_engine timeout_seconds retries.
  destruct (Fetch.fetch_search_results_loop net query search_engine
              timeout_seconds retries) as [notice [Hn E]].
  cbv zeta in *. rewrite E. cbn [snd].
  rewrite <- attempts_made_schedule, <- total_sleep_schedule.
  rewrite schedule_app, Hn. cbn [app].
  rewrite attempts_made_schedule, total_sleep_schedule.
  destruct (fetch_loop_bounds net (fst (engine_of search_engine))
              (search_url search_engine query)
              (engine_selectors (snd (engine_of search_engine)))
              timeout_seconds retries (Z.to_nat retries) 0) as [A S].
  unfold range. cbn [Nat.add] in S.
  replace (Z.max 0 retries) with (Z.of_nat (Z.to_nat retries)) by lia.
  change (2 ^ Z.of_nat 0)%Z with 1%Z in S. lia.
Qed.

Section ScrapeBound.
Variable net : network.
Variable url : string.
Variable verbose : bool.
Variables timeout_seconds retries : Z.

Local Abbreviation loop :=
  (scrape_attempts net url verbose timeout_seconds retries).

Lemma scrape_loop_bounds (n : nat) :
  forall a : nat,
    attempts_made (snd (loop (seq a n))) <= n /\
    (0 <= total_sleep (snd (loop (seq a n)))
     <= 2 ^ Z.of_nat (a + n) - 2 ^ Z.of_nat a)%Z.
Proof.
  induction n as [|n IH]; intros a.
  - simpl seq. rewrite Nat.add_0_r.
    rewrite <- attempts_made_schedule, <- total_sleep_schedule.
    rewrite (proj2 (Scrape.scrape_loop_exhausted net url verbose
                      timeout_seconds retries)).
    count_events.
  - destruct (IH (S a)) as [IA IS].
    pose proof (pow2_succ a) as P2. pose proof (pow2_shift a n) as PS.
    pose proof (pow2_mono a (a + S n) ltac:(lia)) as PM.
    simpl seq.
    destruct (try_result net url a) as [page|e] eqn:T.
    + destruct (Scrape.scrape_loop_page net url verbose timeout_seconds
                  retries a (seq (S a) n) page T) as [t [E S0]].
      rewrite E. cbn [snd].
      rewrite <- attempts_made_schedule, <- total_sleep_schedule, S0.
      count_events.
    + destruct (is_request_exception e) eqn:R.
      * destruct (Scrape.scrape_loop_request_exception net url verbose
                    timeout_seconds retries a (seq (S a) n) e T R)
          as [t [E S0]].
        rewrite E. cbn [snd]. rewrite attempts_made_app, total_sleep_app.
        rewrite <- (attempts_made_schedule t), <- (total_sleep_schedule t), S0.
        count_events.
      * destruct (Scrape.scrape_loop_other_exception net url verbose
                    timeout_seconds retries a (seq (S a) n) e T R)
          as [t [E S0]].
        rewrite E. cbn [snd].
        rewrite <- attempts_made_schedule, <- total_sleep_schedule, S0.
        count_events.
Qed.
End ScrapeBound.

(** X9.  Whatever the network answers, [scrape_page] makes at most
    [retries] requests for a page and sleeps at most [2 ^ retries - 1]
    seconds in total; it makes no request and sleeps for no time when
    [retries] is zero or negative, and when the URL is caught by the skip
    test. *)
Theorem scrape_page_bounds :
  (forall net url verbose timeout_seconds retries,
      let r := scrape_page net url verbose timeout_seconds retries in
      (Z.of_nat (attempts_made (snd r)) <= Z.max 0 retries)%Z /\
      (0 <= total_sleep (snd r) <= 2 ^ Z.max 0 retries - 1)%Z) /\
  (forall net url verbose timeout_seconds retries,
      (retries <= 0)%Z \/ skipped url = true ->
      let r := scrape_page net url verbose timeout_seconds retries in
      attempts_made (snd r) = 0 /\ total_sleep (snd r) = 0%Z).
Proof.
  assert (B : forall net url verbose timeout_seconds retries,
      let r := scrape_page net url verbose timeout_seconds retries in
      (Z.of_nat (attempts_made (snd r)) <= Z.max 0 retries)%Z /\
      (0 <= total_sleep (snd r) <= 2 ^ Z.max 0 retries - 1)%Z).
  { intros net url verbose timeout_seconds retries. cbv zeta.
    assert (P : (1 <= 2 ^ Z.max 0 retries)%Z).
    { change 1%Z with (2 ^ 0)%Z at 1. apply Z.pow_le_mono_r; lia. }
    destruct (skipped url) eqn:Sk.
    - destruct (Skip.scrape_page_skipped net url verbose timeout_seconds
                  retries Sk) as [_ S0].
      rewrite <- attempts_made_schedule, <- total_sleep_schedule, S0.
      count_events.
    - rewrite Scrape.scrape_page_not_skipped by assumption.
      destruct (scrape_loop_bounds net url verbose timeout_seconds retries
                  (Z.to_nat retries) 0) as [A S].
      unfold range. cbn [Nat.add] in S.
      replace (Z.max 0 retries) with (Z.of_nat (Z.to_nat retries)) by lia.
      change (2 ^ Z.of_nat 0)%Z with 1%Z in S. lia. }
  split; [exact B|].
  intros net url verbose timeout_seconds retries [Hr|Sk]; cbv zeta.
  - destruct (B net url verbose timeout_seconds retries) as [A S].
    cbv zeta in A, S.
    replace (Z.max 0 retries) with 0%Z in * by lia.
    change (2 ^ 0 - 1)%Z with 0%Z in S. lia.
  - destruct (Skip.scrape_page_skipped net url verbose timeout_seconds
                retries Sk) as [_ S0].
    rewrite <- attempts_made_schedule, <- total_sleep_schedule, S0.
    split; reflexivity.
Qed.

Lemma scrape_page_bounds_witness :
  let r := scrape_page (always (Responds 200 hello_page))
                       "https://example.org/?via=twitter.com" true 10 3 in
  attempts_made (snd r) = 0 /\ total_sleep (snd r) = 0%Z.
Proof.
  apply (proj2 scrape_page_bounds). right. reflexivity.
Defined.

End Bounds.

(** ** What the returned records look like *)

Module Shapes.
Import Trace.

Lemma extract_result_shape sels link_container r :
  extract_result sels link_container = Some r ->
  exists href title snippet,
    r = [("url", href); ("title", title); ("snippet", snippet)] /\
    href <> "" /\ PyStr.tidy title /\ PyStr.tidy snippet.
Proof.
  unfold extract_result.
  destruct (Soup.select_one (sel_link sels) link_container) as [l|];
    [|discriminate].
  destruct (Soup.attr (snd l) "href") as [href|]; [|discriminate].
  destruct (PyStr.truthy href) eqn:Hh; [|discriminate].
  apply ResultList.truthy_nonempty in Hh. cbn [andb].
  destruct (PyStr.truthy _); [|discriminate].
  intros E. injection E as <-.
  eexists _, _, _. split; [reflexivity|].
  split; [assumption|].
  split; apply CleanText.clean_str_tidy.
Qed.

Lemma extract_results_shape sels result_links r :
  In r (extract_results sels result_links) ->
  exists href title snippet,
    r = [("url", href); ("title", title); ("snippet", snippet)] /\
    href <> "" /\ PyStr.tidy title /\ PyStr.tidy snippet.
Proof.
  rewrite ResultList.extract_results_contributions.
  intros H. apply in_flat_map in H as [c [_ H]]. unfold contribution in H.
  destruct (extract_result sels c) as [r'|] eqn:E; [|destruct H].
  destruct H as [<-|[]]. now apply extract_result_shape in E.
Qed.

Lemma fetch_loop_shape net search_engine url sels timeout_seconds retries
  (l : list nat) rs r :
  fst (fetch_attempts net search_engine url sels timeout_seconds retries l)
  = Ok rs ->
  In r rs ->
  exists href title snippet,
    r = [("url", href); ("title", title); ("snippet", snippet)] /\
    href <> "" /\ PyStr.tidy title /\ PyStr.tidy snippet.
Proof.
  induction l as [|a l IH].
  - simpl. intros E. injection E as <-. intros [].
  - rewrite Fetch.fetch_loop_cons.
    destruct (checked (net url a)) as [soup|e].
    + destruct (Soup.select (sel_result_link_container sels) ([], soup))
        as [|c cs]; cbn [fst]; intros E; injection E as <-.
      * intros [].
      * apply extract_results_shape.
    + destruct e; cbn [fst]; try discriminate.
      * destruct ((status_code =? 500) || (status_code =? 503))%Z;
          cbn [fst]; [exact IH|].
        intros E. injection E as <-. intros [].
      * exact IH.
      * intros E. injection E as <-. intros [].
Qed.

(** X6.  Every record [fetch_search_results] returns has exactly the
    fields [url], [title] and [snippet], in this order; its [url] is not
    empty; its [title] and [snippet] are whitespace-normalised (no leading
    or trailing whitespace, single plain spaces only). *)
Theorem search_results_well_formed :
  forall net query search_engine timeout_seconds retries results r,
    fst (fetch_search_results net query search_engine timeout_seconds retries)
    = Ok results ->
    In r results ->
    exists href title snippet,
      r = [("url", href); ("title", title); ("snippet", snippet)] /\
      href <> "" /\ PyStr.tidy title /\ PyStr.tidy snippet.
Proof.
  intros net query search_engine timeout_seconds retries results r.
  destruct (Fetch.fetch_search_results_loop net query search_engine
              timeout_seconds retries) as [notice [_ E]].
  cbv zeta in E. rewrite E. cbn [fst]. apply fetch_loop_shape.
Qed.

Lemma search_results_well_formed_witness :
  exists href title snippet,
    [("url", "/x"); ("title", "No title found"); ("snippet", "No snippet found")]
    = [("url", href); ("title", title); ("snippet", snippet)] /\
    href <> "" /\ PyStr.tidy title /\ PyStr.tidy snippet.
Proof.
  apply (search_results_well_formed
           (always (Responds 200 (Soup.soup [snd container_without_title])))
           "rocq" "google" 10%Z 3%Z
           [[("url", "/x"); ("title", "No title found");
             ("snippet", "No snippet found")]]).
  - reflexivity.
  - left. reflexivity.
Defined.

(** X7.  [fetch_search_results] does not catch an exception that is not a
    request exception: raised at an attempt reached after transient
    failures, it leaves the function at once, without a sleep after the
    request ([scrape_page], by contrast, turns it into [None]). *)
Theorem fetch_search_results_propagates_other_exceptions :
  forall net query search_engine timeout_seconds retries (k : nat) e,
    let u := search_url search_engine query in
    (Z.of_nat k < retries)%Z ->
    (forall j, j < k -> transient_failure (net u j) = true) ->
    checked (net u k) = Raise e ->
    is_request_exception e = false ->
    let r := fetch_search_results net query search_engine
                                  timeout_seconds retries in
    fst r = Raise e /\
    schedule (snd r) =
      flat_map (retry_round u timeout_seconds) (seq 0 k)
      ++ [EvGet u timeout_seconds].
Proof.
  intros net query search_engine timeout_seconds retries k e u Hk Hpre Hc He.
  apply (SearchMore.fetch_search_results_stops net query search_engine
           timeout_seconds retries k (Raise e) [EvGet u timeout_seconds]
           Hk Hpre).
  intros rest. rewrite Fetch.fetch_loop_cons. fold u. rewrite Hc.
  destruct e; try discriminate He; reflexivity.
Qed.

Lemma fetch_search_results_propagates_other_exceptions_witness :
  let r := fetch_search_results
             (first_then 1 (Fails Timeout) (Fails OtherException))
             "rocq" "google" 10 3 in
  fst r = Raise OtherException /\
  schedule (snd r) =
    flat_map (retry_round (search_url "google" "rocq") 10) (seq 0 1)
    ++ [EvGet (search_url "google" "rocq") 10].
Proof.
  apply (fetch_search_results_propagates_other_exceptions
           (first_then 1 (Fails Timeout) (Fails OtherException))
           "rocq" "google" 10%Z 3%Z 1 OtherException).
  - reflexivity.
  - intros [|j] Hj; [reflexivity | exfalso; lia].
  - reflexivity.
  - reflexivity.
Defined.

(** X8.  When the first [k] attempts of [scrape_page] end in request
    exceptions and attempt [k], still within the retries, yields a page
    whose record can be built, [scrape_page] returns that record after [k]
    backoffs and [k + 1] requests, with no sleep after the successful
    one. *)
Theorem scrape_page_succeeds_after_retries :
  forall net url verbose timeout_seconds retries (k : nat) page,
    skipped url = false ->
    (Z.of_nat k < retries)%Z ->
    (forall j, j < k -> request_failure (net url j) = true) ->
    try_result net url k = Ok page ->
    let r := scrape_page net url verbose timeout_seconds retries in
    fst r = Some page /\
    schedule (snd r) =
      flat_map (retry_round url timeout_seconds) (seq 0 k)
      ++ [EvGet url timeout_seconds].
Proof.
  intros net url verbose timeout_seconds retries k page Hs Hk Hpre Ht.
  cbv zeta. rewrite Scrape.scrape_page_not_skipped by assumption.
  rewrite (Scrape.range_split retries k Hk).
  destruct (Scrape.scrape_loop_request_prefix net url verbose timeout_seconds
              retries k 0 (k :: seq (S k) (Z.to_nat retries - S k)))
    as [t0 [E0 S0]].
  { intros j Hj. apply Retry.request_failure_try_result, Hpre. lia. }
  destruct (Scrape.scrape_loop_page net url verbose timeout_seconds
              retries k (seq (S k) (Z.to_nat retries - S k)) page Ht)
    as [t [E S1]].
  rewrite E0, E. cbn [fst snd]. split; [reflexivity|].
  now rewrite schedule_app, S0, S1.
Qed.

Lemma scrape_page_succeeds_after_retries_witness :
  let r := scrape_page
             (first_then 2 (Responds 503 empty_page) (Responds 200 hello_page))
             "https://example.org/" false 10 3 in
  fst r = Some [("url", "https://example.org/");
                ("title", "No title found");
                ("description", "No description found");
                ("full_content", "Hello world")] /\
  schedule (snd r) =
    flat_map (retry_round "https://example.org/" 10) (seq 0 2)
    ++ [EvGet "https://example.org/" 10].
Proof.
  apply (scrape_page_succeeds_after_retries
           (first_then 2 (Responds 503 empty_page) (Responds 200 hello_page))
           "https://example.org/" false 10%Z 3%Z 2).
  - reflexivity.
  - reflexivity.
  - intros [|[|j]] Hj; [reflexivity | reflexivity | exfalso; lia].
  - reflexivity.
Defined.

Lemma try_result_shape net url attempt page :
  try_result net url attempt = Ok page ->
  exists title description full_content,
    page = [("url", url); ("title", title); ("description", description);
            ("full_content", full_content)] /\
    PyStr.tidy title /\ PyStr.tidy description /\ PyStr.tidy full_content.
Proof.
  unfold try_result, extract_page.
  destruct (checked (net url attempt)) as [soup|e]; [|discriminate].
  destruct (page_description soup); [|discriminate].
  intros E. injection E as <-. eexists _, _, _.
  split; [reflexivity|]. repeat split; apply CleanText.clean_str_tidy.
Qed.

Lemma collect_scraped_length (outcomes : list (option Dict.dict)) :
  List.length (collect_scraped outcomes) <= List.length outcomes.
Proof.
  unfold collect_scraped.
  assert (G : forall l acc,
             List.length
               (fold_left
                  (fun scraped_data scraped_result =>
                     match scraped_result with
                     | Some p => if Dict.to_bool p then scraped_data ++ [p]
                                 else scraped_data
                     | None => scraped_data
                     end) l acc)
             <= List.length acc + List.length l).
  { induction l as [|o l IH]; intros acc; simpl; [lia|].
    etransitivity; [apply IH|].
    destruct o as [p|]; [|lia].
    destruct (Dict.to_bool p); [|lia].
    rewrite length_app. simpl. lia. }
  apply (G outcomes []).
Qed.

Lemma scrape_page_shape net url verbose timeout_seconds retries page :
  fst (scrape_page net url verbose timeout_seconds retries) = Some page ->
  skipped url = false /\
  exists title description full_content,
    page = [("url", url); ("title", title); ("description", description);
            ("full_content", full_content)] /\
    PyStr.tidy title /\ PyStr.tidy description /\ PyStr.tidy full_content.
Proof.
  intros H.
  destruct (Skip.scrape_page_some _ _ _ _ _ _ H) as [Hs _].
  split; [assumption|].
  rewrite Scrape.scrape_page_not_skipped in H by assumption.
  apply Skip.scrape_loop_some in H as [a Ha].
  now apply try_result_shape in Ha.
Qed.

Lemma scrape_completed_shape net verbose timeout_seconds retries completed page :
  In page (scrape_completed net verbose timeout_seconds retries completed) ->
  exists url title description full_content,
    In url completed /\ skipped url = false /\
    page = [("url", url); ("title", title); ("description", description);
            ("full_content", full_content)].
Proof.
  intros Hin.
  unfold scrape_completed in Hin. apply Skip.collect_scraped_in in Hin.
  apply in_map_iff in Hin as [url [Hp Hu]].
  destruct (scrape_page_shape _ _ _ _ _ _ Hp) as [Hs [t [d [c [E _]]]]].
  exists url, t, d, c. auto.
Qed.

(** X10.  A record returned by [scrape_page] has exactly the fields [url],
    [title], [description] and [full_content], in this order; its [url] is
    the URL asked for, which is not on the skip list; the three texts are
    whitespace-normalised.  The records collected from the finished tasks
    are of this kind for URLs among the tasks, and are never more than the
    tasks. *)
Theorem scraped_pages_well_formed :
  (forall net url verbose timeout_seconds retries page,
      fst (scrape_page net url verbose timeout_seconds retries) = Some page ->
      skipped url = false /\
      exists title description full_content,
        page = [("url", url); ("title", title); ("description", description);
                ("full_content", full_content)] /\
        PyStr.tidy title /\ PyStr.tidy description /\
        PyStr.tidy full_content) /\
  (forall net verbose timeout_seconds retries completed page,
      In page (scrape_completed net verbose timeout_seconds retries completed) ->
      exists url title description full_content,
        In url completed /\ skipped url = false /\
        page = [("url", url); ("title", title); ("description", description);
                ("full_content", full_content)]) /\
  (forall net verbose timeout_seconds retries completed,
      List.length (scrape_completed net verbose timeout_seconds retries completed)
      <= List.length completed).
Proof.
  split; [exact scrape_page_shape|split].
  - exact scrape_completed_shape.
  - intros net verbose timeout_seconds retries completed.
    unfold scrape_completed.
    etransitivity; [apply collect_scraped_length|]. now rewrite length_map.
Qed.

Lemma scraped_pages_well_formed_witness :
  skipped "https://example.org/" = false /\
  exists title description full_content,
    [("url", "https://example.org/"); ("title", "No title found");
     ("description", "No description found"); ("full_content", "Hello world")]
    = [("url", "https://example.org/"); ("title", title);
       ("description", description); ("full_content", full_content)] /\
    PyStr.tidy title /\ PyStr.tidy description /\ PyStr.tidy full_content.
Proof.
  apply (proj1 scraped_pages_well_formed
           (always (Responds 200 hello_page)) "https://example.org/"
           false 10%Z 3%Z).
  reflexivity.
Defined.

End Shapes.

(** ** sanitize_filename *)

Module Filename.
Import PyStr PyStrFacts PyRe.

Lemma space_not_name_char (c : ascii) :
  isspace c = true -> is_name_char c = false.
Proof.
  destruct c as [[] [] [] [] [] [] [] []]; vm_compute;
    intros H; (reflexivity || discriminate H).
Qed.

Lemma kept_not_space (c : ascii) :
  is_kept c = true -> isspace c = false -> is_name_char c = true.
Proof.
  unfold is_kept, is_name_char. intros H E. rewrite E in H.
  now rewrite orb_false_r in H.
Qed.

Lemma name_char_kept (c : ascii) : is_name_char c = true -> is_kept c = true.
Proof.
  unfold is_kept, is_name_char. intros H.
  apply orb_true_iff in H as [-> | ->]; [reflexivity | apply orb_true_r].
Qed.

Lemma all_name_no_space (s : string) :
  all_chars is_name_char s = true -> no_space s = true.
Proof.
  induction s as [|c s IH]; [reflexivity|].
  cbn [all_chars no_space]. intros H.
  apply andb_true_iff in H as [Hc Hs]. rewrite (IH Hs), andb_true_r.
  destruct (isspace c) eqn:E; [|reflexivity].
  apply space_not_name_char in E. congruence.
Qed.

Lemma underscore_kept : is_kept "_" = true.
Proof. vm_compute. reflexivity. Qed.

Lemma underscore_name_char : is_name_char "_" = true.
Proof. vm_compute. reflexivity. Qed.

Lemma underscore_not_space : isspace "_" = false.
Proof. vm_compute. reflexivity. Qed.

Lemma sub_invalid_kept (s : string) : all_chars is_kept (sub_invalid s) = true.
Proof.
  induction s as [|c s IH]; [reflexivity|].
  cbn [sub_invalid all_chars]. rewrite IH, andb_true_r.
  destruct (is_kept c) eqn:E; [exact E | exact underscore_kept].
Qed.

Lemma all_chars_lstrip p (s : string) :
  all_chars p s = true -> all_chars p (lstrip s) = true.
Proof.
  induction s as [|c s IH]; [reflexivity|].
  cbn [lstrip]. intros H.
  destruct (isspace c); [|exact H].
  cbn [all_chars] in H. apply andb_true_iff in H as [_ H]. auto.
Qed.

Lemma all_chars_rstrip p (s : string) :
  all_chars p s = true -> all_chars p (rstrip s) = true.
Proof.
  induction s as [|c s IH]; [reflexivity|].
  cbn [all_chars rstrip]. intros H.
  apply andb_true_iff in H as [Hc Hs].
  destruct (isspace c && is_empty (rstrip s)); [reflexivity|].
  cbn [all_chars]. now rewrite Hc, IH.
Qed.

Lemma sub_spaces_name (s : string) :
  all_chars is_kept s = true -> all_chars is_name_char (sub_spaces s) = true.
Proof.
  induction s as [|c s IH]; [reflexivity|].
  cbn [all_chars sub_spaces]. intros H.
  apply andb_true_iff in H as [Hc Hs]. specialize (IH Hs).
  destruct (isspace c) eqn:E.
  - destruct (leading_space s); [exact IH|].
    cbn [all_chars]. now rewrite underscore_name_char.
  - cbn [all_chars]. now rewrite (kept_not_space c Hc E).
Qed.

Lemma sanitize_name_chars (query : string) :
  all_chars is_name_char (sanitize_filename query) = true.
Proof.
  unfold sanitize_filename, strip.
  apply sub_spaces_name, all_chars_rstrip, all_chars_lstrip, sub_invalid_kept.
Qed.

(** X11.  A sanitized name consists of word characters (letters, digits,
    underscore) and hyphens only; in particular it contains no whitespace
    and none of the characters that were replaced. *)
Theorem sanitize_filename_safe (query : string) :
  all_chars is_name_char (sanitize_filename query) = true /\
  no_space (sanitize_filename query) = true.
Proof.
  split; [apply sanitize_name_chars|].
  apply all_name_no_space, sanitize_name_chars.
Qed.

Lemma sub_invalid_id (s : string) :
  all_chars is_kept s = true -> sub_invalid s = s.
Proof.
  induction s as [|c s IH]; [reflexivity|].
  cbn [all_chars sub_invalid]. intros H.
  apply andb_true_iff in H as [Hc Hs]. now rewrite Hc, IH.
Qed.

Lemma sub_spaces_id (s : string) : no_space s = true -> sub_spaces s = s.
Proof.
  induction s as [|c s IH]; [reflexivity|].
  cbn [no_space sub_spaces]. intros H.
  apply andb_true_iff in H as [Hc Hs]. apply negb_true_iff in Hc.
  now rewrite Hc, IH.
Qed.

Lemma strip_no_space (s : string) : no_space s = true -> strip s = s.
Proof.
  intros H. unfold strip. rewrite lstrip_id.
  - apply rstrip_id. now apply trailing_space_word.
  - destruct s as [|c s]; [reflexivity|]. cbn [no_space leading_space] in *.
    apply andb_true_iff in H as [Hc _]. now apply negb_true_iff in Hc.
Qed.

Lemma all_chars_weaken (p q : ascii -> bool) (s : string) :
  (forall c, p c = true -> q c = true) ->
  all_chars p s = true -> all_chars q s = true.
Proof.
  intros W. induction s as [|c s IH]; [reflexivity|].
  cbn [all_chars]. intros H.
  apply andb_true_iff in H as [Hc Hs]. now rewrite (W c Hc), IH.
Qed.

(** X12.  [sanitize_filename] is idempotent: a sanitized name is left as it
    is. *)
Theorem sanitize_filename_idempotent (query : string) :
  sanitize_filename (sanitize_filename query) = sanitize_filename query.
Proof.
  pose proof (sanitize_name_chars query) as Hn.
  pose proof (all_name_no_space _ Hn) as Hs.
  set (t := sanitize_filename query) in *.
  unfold sanitize_filename at 1.
  rewrite sub_invalid_id by (apply (all_chars_weaken is_name_char); auto using name_char_kept).
  rewrite strip_no_space by assumption. now apply sub_spaces_id.
Qed.

Lemma no_space_sub_invalid (s : string) :
  no_space s = true -> no_space (sub_invalid s) = true.
Proof.
  induction s as [|c s IH]; [reflexivity|].
  cbn [no_space sub_invalid]. intros H.
  apply andb_true_iff in H as [Hc Hs]. rewrite (IH Hs), andb_true_r.
  destruct (is_kept c); [exact Hc|].
  now rewrite underscore_not_space.
Qed.

Lemma length_sub_invalid (s : string) :
  String.length (sub_invalid s) = String.length s.
Proof.
  induction s as [|c s IH]; [reflexivity|].
  cbn [sub_invalid String.length]. now rewrite IH.
Qed.

(** X13.  In a query without whitespace every character that is not a word
    character or a hyphen is replaced by its own underscore: the name has
    the length of the query and differs from it only at those characters
    (a run of such characters is not merged into one underscore). *)
Theorem sanitize_filename_one_underscore_each (query : string) :
  no_space query = true ->
  sanitize_filename query = sub_invalid query /\
  String.length (sanitize_filename query) = String.length query /\
  (forall n, String.get n (sanitize_filename query) =
             option_map (fun c => if is_name_char c then c else "_"%char)
                        (String.get n query)).
Proof.
  intros H.
  assert (E : sanitize_filename query = sub_invalid query).
  { unfold sanitize_filename.
    rewrite strip_no_space by now apply no_space_sub_invalid.
    now apply sub_spaces_id, no_space_sub_invalid. }
  rewrite E. split; [reflexivity|]. split; [apply length_sub_invalid|].
  clear E. induction query as [|c q IH]; intros n; [reflexivity|].
  cbn [no_space] in H.
  apply andb_true_iff in H as [Hc Hq]. apply negb_true_iff in Hc.
  assert (K : is_kept c = is_name_char c).
  { unfold is_kept, is_name_char. now rewrite Hc, orb_false_r. }
  destruct n as [|n]; cbn [sub_invalid String.get option_map].
  - now rewrite K.
  - now apply IH.
Qed.

Lemma sanitize_filename_one_underscore_each_witness :
  sanitize_filename "C++:a/b" = "C___a_b" /\
  String.length (sanitize_filename "C++:a/b") = String.length "C++:a/b".
Proof.
  destruct (sanitize_filename_one_underscore_each "C++:a/b" eq_refl)
    as [E [L _]].
  split; [exact E | exact L].
Defined.

Lemma sub_invalid_app (a b : string) :
  sub_invalid (a ++ b) = (sub_invalid a ++ sub_invalid b)%string.
Proof.
  induction a as [|c a IH]; [reflexivity|].
  cbn [String.append sub_invalid]. now rewrite IH.
Qed.

(** X14.  Two queries that differ only in a character outside the class
    [[\w\s-]], one having it where the other has an underscore, get the same
    file name. *)
Theorem sanitize_filename_collides (before after : string) (c : ascii) :
  is_kept c = false ->
  sanitize_filename (before ++ String c after) =
  sanitize_filename (before ++ String "_" after).
Proof.
  intros H. unfold sanitize_filename. rewrite !sub_invalid_app.
  cbn [sub_invalid]. now rewrite H, underscore_kept.
Qed.

Lemma sanitize_filename_collides_witness :
  sanitize_filename "rocq/coq" = sanitize_filename "rocq_coq".
Proof. apply (sanitize_filename_collides "rocq" "coq" "/"). reflexivity. Defined.

End Filename.

(** ** The field list typed by the user *)

Module Fields.
Import PyStr PyStrFacts.

Lemma split_on_cons (sep : ascii) (s : string) :
  exists w ws, split_on sep s = w :: ws.
Proof.
  induction s as [|c s [w [ws IH]]]; cbn [split_on].
  - now exists EmptyString, [].
  - destruct (Ascii.eqb c sep); [eauto|]. rewrite IH. eauto.
Qed.

Lemma length_split_on (sep : ascii) (s : string) :
  List.length (split_on sep s) = S (count_char sep s).
Proof.
  induction s as [|c s IH]; [reflexivity|].
  cbn [split_on count_char].
  destruct (Ascii.eqb c sep); cbn [List.length Nat.add].
  - now rewrite IH.
  - destruct (split_on_cons sep s) as [w [ws E]]. rewrite E in *.
    exact IH.
Qed.

(** Splitting a text that starts with a piece free of the separator. *)
Lemma split_on_app (sep : ascii) (w s : string) :
  count_char sep w = 0 ->
  split_on sep (w ++ s) =
  (w ++ hd EmptyString (split_on sep s))%string :: tl (split_on sep s).
Proof.
  induction w as [|c w IH]; cbn [String.append count_char split_on].
  - intros _. now destruct (split_on_cons sep s) as [h [t ->]].
  - destruct (Ascii.eqb c sep); [discriminate|]. intros H.
    rewrite (IH H). reflexivity.
Qed.

Lemma split_on_join (sep : ascii) (fs : list string) :
  fs <> [] ->
  Forall (fun f => count_char sep f = 0) fs ->
  split_on sep (join (String sep EmptyString) fs) = fs.
Proof.
  intros Hne H. induction H as [|f fs Hf Hfs IH]; [now elim Hne|].
  destruct fs as [|g fs].
  - cbn [join]. rewrite <- (append_empty_r f) at 1.
    rewrite split_on_app by assumption. cbn [split_on hd tl].
    now rewrite append_empty_r.
  - change (join (String sep "") (f :: g :: fs))
      with (f ++ String sep (join (String sep "") (g :: fs)))%string.
    rewrite split_on_app by assumption.
    cbn [split_on]. rewrite Ascii.eqb_refl. cbn [hd tl].
    rewrite append_empty_r, IH by discriminate. reflexivity.
Qed.

Lemma leading_space_lstrip (s : string) : leading_space (lstrip s) = false.
Proof.
  induction s as [|c s IH]; [reflexivity|]. cbn [lstrip].
  destruct (isspace c) eqn:E; [exact IH | exact E].
Qed.

Lemma leading_space_rstrip (s : string) :
  leading_space s = false -> leading_space (rstrip s) = false.
Proof.
  destruct s as [|c s]; [reflexivity|]. cbn [rstrip leading_space].
  intros H. now destruct (isspace c && is_empty (rstrip s)).
Qed.

Lemma trailing_space_rstrip (s : string) : trailing_space (rstrip s) = false.
Proof.
  induction s as [|c s IH]; [reflexivity|]. cbn [rstrip].
  destruct (isspace c) eqn:E; cbn [andb].
  - destruct (is_empty (rstrip s)) eqn:R; [reflexivity|].
    cbn [trailing_space]. now rewrite R.
  - cbn [trailing_space]. now destruct (is_empty (rstrip s)).
Qed.

Lemma strip_idempotent (s : string) : strip (strip s) = strip s.
Proof.
  unfold strip at 1. rewrite lstrip_id.
  - apply rstrip_id. apply trailing_space_rstrip.
  - apply leading_space_rstrip, leading_space_lstrip.
Qed.

(** X15.  The field list shown as the default of the prompt
    ([','.join(fields)]) is read back as the same list when it is typed in
    again, provided the list is not empty and no field contains a comma or
    starts or ends with whitespace. *)
Theorem parse_fields_join (fields : list string) :
  fields <> [] ->
  Forall (fun f => count_char "," f = 0 /\ strip f = f) fields ->
  parse_fields (join "," fields) = fields.
Proof.
  intros Hne H. unfold parse_fields.
  rewrite split_on_join; [|assumption|].
  - induction H as [|f fs [_ Hf] _ IH]; [reflexivity|].
    cbn [map]. rewrite Hf. f_equal.
    destruct fs; [reflexivity | apply IH; discriminate].
  - eapply Forall_impl; [|exact H]. now intros f [Hf _].
Qed.

Lemma parse_fields_join_witness :
  parse_fields (join "," DEFAULT_OUTPUT_FIELDS) = DEFAULT_OUTPUT_FIELDS.
Proof.
  apply (parse_fields_join DEFAULT_OUTPUT_FIELDS).
  - discriminate.
  - repeat constructor.
Defined.

(** X16.  The comprehension that reads a typed field list always yields
    one field more than the text has commas (so never an empty list: in
    [main], an empty [--fields] gives one empty field name), and every
    field comes out stripped of surrounding whitespace.  In
    [interactive_mode] the empty answer keeps the configured fields, and
    every other answer is read by the same comprehension. *)
Theorem parse_fields_count_and_strip :
  (forall fields : string,
      List.length (parse_fields fields) = S (count_char "," fields) /\
      Forall (fun f => strip f = f /\
                       leading_space f = false /\ trailing_space f = false)
             (parse_fields fields)) /\
  (forall output_fields : list string,
      interactive_fields "" output_fields = output_fields) /\
  (forall (fields_choice : string) (output_fields : list string),
      fields_choice <> "" ->
      interactive_fields fields_choice output_fields =
      parse_fields fields_choice).
Proof.
  split; [|split].
  - intros fields. unfold parse_fields. split.
    + now rewrite length_map, length_split_on.
    + apply Forall_forall. intros f Hf.
      apply in_map_iff in Hf as [g [<- _]].
      split; [apply strip_idempotent|]. split.
      * apply leading_space_rstrip, leading_space_lstrip.
      * apply trailing_space_rstrip.
  - reflexivity.
  - intros fields_choice output_fields H. unfold interactive_fields.
    apply ResultList.truthy_nonempty in H. now rewrite H.
Qed.

Lemma parse_fields_count_and_strip_witness :
  interactive_fields " url ,title" DEFAULT_OUTPUT_FIELDS =
  parse_fields " url ,title".
Proof.
  apply (proj2 (proj2 parse_fields_count_and_strip)). discriminate.
Defined.

End Fields.

(** ** From scraping to projection *)

Module Pipeline.
Import Dict.

(** X17.  With the default output fields, projecting the records collected
    from the finished tasks changes nothing, as long as no task has the
    empty URL: no record is dropped and every record comes out as it went
    in. *)
Theorem default_projection_keeps_scraped_pages :
  forall net verbose timeout_seconds retries completed,
    Forall (fun url => url <> "") completed ->
    process_scraped_data
      (scrape_completed net verbose timeout_seconds retries completed)
      DEFAULT_OUTPUT_FIELDS
    = scrape_completed net verbose timeout_seconds retries completed.
Proof.
  intros net verbose timeout_seconds retries completed Hc.
  rewrite Projection.process_scraped_data_map.
  assert (G : forall pages,
             (forall page, In page pages ->
                exists url title description full_content,
                  url <> "" /\
                  page = [("url", url); ("title", title);
                          ("description", description);
                          ("full_content", full_content)]) ->
             map (fun item => process_item item DEFAULT_OUTPUT_FIELDS)
                 (filter has_url pages) = pages).
  { induction pages as [|page pages IH]; intros H; [reflexivity|].
    destruct (H page (or_introl eq_refl)) as [u [t [d [c [Hu ->]]]]].
    cbn [filter]. unfold has_url at 1. cbn [Dict.get String.eqb Ascii.eqb Bool.eqb].
    apply ResultList.truthy_nonempty in Hu. rewrite Hu.
    cbn [map]. f_equal.
    apply IH. intros p Hp. apply H. now right. }
  apply G. intros page Hin.
  destruct (Shapes.scrape_completed_shape
              net verbose timeout_seconds retries completed page Hin)
    as [url [t [d [c [Hu [_ E]]]]]].
  exists url, t, d, c. split; [|exact E].
  rewrite Forall_forall in Hc. now apply Hc.
Qed.

Lemma default_projection_keeps_scraped_pages_witness :
  process_scraped_data
    (scrape_completed (always (Responds 200 hello_page)) false 10 3
       ["https://example.org/a"; "https://twitter.com/b";
        "https://example.org/c"])
    DEFAULT_OUTPUT_FIELDS
  = scrape_completed (always (Responds 200 hello_page)) false 10 3
      ["https://example.org/a"; "https://twitter.com/b";
       "https://example.org/c"].
Proof.
  apply default_projection_keeps_scraped_pages.
  repeat constructor; discriminate.
Defined.

End Pipeline.

(** ** Both loops: the worst case and the requests made *)

Module WorstCase.
Import Trace SearchMore Bounds.

Lemma total_sleep_rounds url tmo (n : nat) :
  forall a : nat,
    total_sleep (flat_map (retry_round url tmo) (seq a n)) =
    (2 ^ Z.of_nat (a + n) - 2 ^ Z.of_nat a)%Z.
Proof.
  induction n as [|n IH]; intros a.
  - simpl seq. rewrite Nat.add_0_r. unfold total_sleep. simpl. lia.
  - simpl seq. cbn [flat_map]. rewrite total_sleep_app, (IH (S a)).
    pose proof (pow2_succ a) as P2. pose proof (pow2_shift a n) as PS.
    change (total_sleep (retry_round url tmo a)) with (2 ^ Z.of_nat a + 0)%Z.
    lia.
Qed.

Lemma rounds_totals url tmo (retries : Z) :
  attempts_made (flat_map (retry_round url tmo) (range retries))
  = Z.to_nat retries /\
  total_sleep (flat_map (retry_round url tmo) (range retries))
  = (2 ^ Z.max 0 retries - 1)%Z.
Proof.
  unfold range. split.
  - now rewrite attempts_made_rounds, length_seq.
  - rewrite total_sleep_rounds. cbn [Nat.add].
    replace (Z.max 0 retries) with (Z.of_nat (Z.to_nat retries)) by lia.
    reflexivity.
Qed.

(** X18.  When every attempt fails with a retried error — HTTP 500/503 or
    a timeout for [fetch_search_results], any request exception for
    [scrape_page] — the function makes exactly [retries] requests, sleeps
    exactly [2 ^ retries - 1] seconds in total, and returns its failure
    value: the bounds of both loops are attained. *)
Theorem retries_exhausted_cost :
  (forall net query search_engine timeout_seconds retries,
      (forall k, k < Z.to_nat retries ->
         transient_failure (net (search_url search_engine query) k) = true) ->
      let r := fetch_search_results net query search_engine
                                    timeout_seconds retries in
      fst r = Ok [] /\
      attempts_made (snd r) = Z.to_nat retries /\
      total_sleep (snd r) = (2 ^ Z.max 0 retries - 1)%Z) /\
  (forall net url verbose timeout_seconds retries,
      skipped url = false ->
      (forall k, k < Z.to_nat retries -> request_failure (net url k) = true) ->
      let r := scrape_page net url verbose timeout_seconds retries in
      fst r = None /\
      attempts_made (snd r) = Z.to_nat retries /\
      total_sleep (snd r) = (2 ^ Z.max 0 retries - 1)%Z).
Proof.
  split.
  - intros net query search_engine timeout_seconds retries H.
    destruct (Fetch.fetch_search_results_all_transient net query search_engine
                timeout_seconds retries H) as [V [S0 _]].
    cbv zeta. split; [exact V|].
    rewrite <- attempts_made_schedule, <- total_sleep_schedule, S0.
    apply rounds_totals.
  - intros net url verbose timeout_seconds retries Hs H.
    destruct (Scrape.scrape_page_all_request_exceptions net url verbose
                timeout_seconds retries Hs) as [V S0].
    { intros k Hk. now apply Retry.request_failure_try_result, H. }
    cbv zeta. split; [exact V|].
    rewrite <- attempts_made_schedule, <- total_sleep_schedule, S0.
    apply rounds_totals.
Qed.

Lemma retries_exhausted_cost_witness :
  (let r := fetch_search_results (always (Fails Timeout))
                                 "rocq" "google" 10 3 in
   fst r = Ok [] /\ attempts_made (snd r) = 3 /\ total_sleep (snd r) = 7%Z) /\
  (let r := scrape_page (always (Responds 404 empty_page))
                        "https://example.org/" false 10 3 in
   fst r = None /\ attempts_made (snd r) = 3 /\ total_sleep (snd r) = 7%Z).
Proof.
  split.
  - apply (proj1 retries_exhausted_cost (always (Fails Timeout))
             "rocq" "google" 10%Z 3%Z).
    intros k _. reflexivity.
  - apply (proj2 retries_exhausted_cost (always (Responds 404 empty_page))
             "https://example.org/" false 10%Z 3%Z).
    + reflexivity.
    + intros k _. reflexivity.
Defined.

Lemma fetch_loop_requests net search_engine url sels timeout_seconds retries
  (l : list nat) u t :
  In (EvGet u t)
     (snd (fetch_attempts net search_engine url sels timeout_seconds retries l)) ->
  u = url /\ t = timeout_seconds.
Proof.
  induction l as [|a l IH].
  - simpl. intros [H|[]]. discriminate H.
  - rewrite Fetch.fetch_loop_cons.
    assert (G : forall m, In (EvGet u t) [EvGet url timeout_seconds; EvPrint m] ->
                          u = url /\ t = timeout_seconds).
    { intros m [H|[H|[]]]; [injection H; auto | discriminate H]. }
    assert (R : forall m d,
               In (EvGet u t)
                  (EvGet url timeout_seconds :: EvPrint m :: EvSleep d ::
                   snd (fetch_attempts net search_engine url sels
                          timeout_seconds retries l)) ->
               u = url /\ t = timeout_seconds).
    { intros m d [H|[H|[H|H]]];
        [injection H; auto | discriminate H | discriminate H | auto]. }
    destruct (checked (net url a)) as [soup|e].
    + destruct (Soup.select (sel_result_link_container sels) ([], soup));
        cbn [snd]; [apply G|].
      intros [H|[]]. injection H; auto.
    + destruct e; cbn [snd]; try apply G; try apply R.
      * destruct ((status_code =? 500) || (status_code =? 503))%Z;
          cbn [snd]; [apply R | apply G].
      * intros [H|[]]. injection H; auto.
      * intros [H|[]]. injection H; auto.
Qed.

Lemma get_in_schedule u t (tr : list event) :
  In (EvGet u t) tr -> In (EvGet u t) (schedule tr).
Proof. intros H. apply filter_In. now split. Qed.

Lemma scrape_loop_requests net url verbose timeout_seconds retries
  (l : list nat) u t :
  In (EvGet u t)
     (snd (scrape_attempts net url verbose timeout_seconds retries l)) ->
  u = url /\ t = timeout_seconds.
Proof.
  induction l as [|a l IH]; intros Hin.
  - apply get_in_schedule in Hin.
    rewrite (proj2 (Scrape.scrape_loop_exhausted net url verbose
                      timeout_seconds retries)) in Hin. destruct Hin.
  - destruct (try_result net url a) as [page|e] eqn:T.
    + destruct (Scrape.scrape_loop_page net url verbose timeout_seconds
                  retries a l page T) as [tr [E S0]].
      rewrite E in Hin. cbn [snd] in Hin. apply get_in_schedule in Hin.
      rewrite S0 in Hin. destruct Hin as [H|[]]. injection H; auto.
    + destruct (is_request_exception e) eqn:R.
      * destruct (Scrape.scrape_loop_request_exception net url verbose
                    timeout_seconds retries a l e T R) as [tr [E S0]].
        rewrite E in Hin. cbn [snd] in Hin.
        apply in_app_or in Hin as [Hin|Hin]; [|auto].
        apply get_in_schedule in Hin. rewrite S0 in Hin.
        destruct Hin as [H|[H|[]]]; [injection H; auto | discriminate H].
      * destruct (Scrape.scrape_loop_other_exception net url verbose
                    timeout_seconds retries a l e T R) as [tr [E S0]].
        rewrite E in Hin. cbn [snd] in Hin. apply get_in_schedule in Hin.
        rewrite S0 in Hin. destruct Hin as [H|[]]. injection H; auto.
Qed.

(** X20.  Whatever the network answers, every request of
    [fetch_search_results] goes to the URL of the engine followed by the
    query as it is, and every request of [scrape_page] goes to the URL it
    was given; both use the configured timeout. *)
Theorem requests_go_to_one_url :
  (forall net query search_engine timeout_seconds retries u t,
      In (EvGet u t)
         (snd (fetch_search_results net query search_engine
                                    timeout_seconds retries)) ->
      u = (engine_url (snd (engine_of search_engine)) ++ query)%string /\
      t = timeout_seconds) /\
  (forall net url verbose timeout_seconds retries u t,
      In (EvGet u t)
         (snd (scrape_page net url verbose timeout_seconds retries)) ->
      u = url /\ t = timeout_seconds).
Proof.
  split.
  - intros net query search_engine timeout_seconds retries u t Hin.
    destruct (Fetch.fetch_search_results_loop net query search_engine
                timeout_seconds retries) as [notice [Hn E]].
    cbv zeta in E. rewrite E in Hin. cbn [snd] in Hin.
    apply in_app_or in Hin as [Hin|Hin].
    + apply get_in_schedule in Hin. rewrite Hn in Hin. destruct Hin.
    + now apply fetch_loop_requests in Hin.
  - intros net url verbose timeout_seconds retries u t Hin.
    destruct (skipped url) eqn:Sk.
    + apply get_in_schedule in Hin.
      rewrite (proj2 (Skip.scrape_page_skipped net url verbose timeout_seconds
                        retries Sk)) in Hin. destruct Hin.
    + rewrite Scrape.scrape_page_not_skipped in Hin by assumption.
      now apply scrape_loop_requests in Hin.
Qed.

Lemma requests_go_to_one_url_witness :
  "https://duckduckgo.com/html/?q=rocq prover" =
    (engine_url (snd (engine_of "duckduckgo")) ++ "rocq prover")%string /\
  10%Z = 10%Z.
Proof.
  apply (proj1 requests_go_to_one_url (always (Fails Timeout))
           "rocq prover" "duckduckgo" 10%Z 2%Z).
  vm_compute. left. reflexivity.
Defined.

End WorstCase.

(** ** interactive_mode: the name of the file to save *)

Module SaveName.

Lemma ends_with_refl (s : string) : ends_with s s = true.
Proof. destruct s; cbn [ends_with]; now rewrite String.eqb_refl. Qed.

Lemma ends_with_app (a suffix : string) : ends_with suffix (a ++ suffix) = true.
Proof.
  induction a as [|c a IH]; cbn [String.append].
  - apply ends_with_refl.
  - cbn [ends_with]. rewrite IH. apply orb_true_r.
Qed.

(** X19.  The file name [interactive_mode] saves to always ends with a dot
    and the chosen format, whatever was typed; when the file is named
    after the query, what precedes the extension consists of word
    characters and hyphens only. *)
Theorem interactive_filename_extension :
  forall splitext_base query final_format save_per_query filename,
    ends_with ("." ++ final_format)
      (interactive_filename splitext_base query final_format
                            save_per_query filename) = true /\
    (is_yes save_per_query = true ->
     exists name,
       interactive_filename splitext_base query final_format
                            save_per_query filename
       = (name ++ "." ++ final_format)%string /\
       PyRe.all_chars PyRe.is_name_char name = true).
Proof.
  intros splitext_base query final_format save_per_query filename.
  unfold interactive_filename. split.
  - destruct (is_yes save_per_query); [apply ends_with_app|].
    destruct (ends_with _ (if String.eqb filename "" then _ else _)) eqn:E;
      cbn [negb]; [exact E | apply ends_with_app].
  - intros ->. exists (sanitize_filename query).
    split; [reflexivity | apply Filename.sanitize_name_chars].
Qed.

Lemma interactive_filename_extension_witness :
  exists name,
    interactive_filename (fun s => s) "what is rocq?" "json" "Y" "ignored"
    = (name ++ "." ++ "json")%string /\
    PyRe.all_chars PyRe.is_name_char name = true.
Proof.
  apply (proj2 (interactive_filename_extension
                  (fun s => s) "what is rocq?" "json" "Y" "ignored")).
  reflexivity.
Defined.

End SaveName.
